(** * Session controller of the speech relay: a shallow embedding

    The repository holds three revisions of one socket.io server that relays
    microphone audio to a streaming speech-recognition gateway:

    - [ServerTs]   : src/server.ts (no guards at all);
    - [Part000a]   : first document of src/unnamed/part_000 (try/catch added);
    - [Part000b]   : second document of src/unnamed/part_000 (credential
                     validation, the [isStreamEnded] flag and an 'end' handler).

    Each connection handler is a closure over its own variables; the
    handlers are embedded as computations in a small state-and-exception
    monad over a [World] that holds the closure variables, the stream
    objects the gateway handed out to the connection, what was emitted on
    the socket and what was printed on the console.  The gateway's answers
    (a call returns or throws, a stream emits 'data', 'error' or 'end') are
    inputs: they come with the events. *)

From Stdlib Require Import String List Bool Arith NArith Lia.
From Stdlib Require Import Strings.Byte.
From stdpp Require Import base list strings.
Import ListNotations.

Local Open Scope string_scope.
Local Open Scope list_scope.

(** ** JavaScript values that the handlers touch *)

Definition bytes := list Byte.byte.

(** A thrown or emitted [Error] object; the handlers only read [.message]. *)
Record JsError := { message : string }.

(** [undefined.transcript]: what V8 throws for [result.alternatives[0].transcript]
    when [alternatives] is empty. *)
Definition TypeError_transcript : JsError :=
  {| message := "Cannot read properties of undefined (reading 'transcript')" |}.

(** The argument of [speechClient.streamingRecognize]. *)
Record RecognitionConfig := {
  encoding : string;
  sampleRateHertz : N;
  languageCode : string;
  enableAutomaticPunctuation : bool;
  model : string
}.

Record StreamingRequest := {
  config : RecognitionConfig;
  interimResults : bool
}.

(** The payload of the gateway's 'data' event. *)
Record Alternative := { transcript : string }.
Record SpeechResult := { alternatives : list Alternative }.
Record StreamingResponse := { results : list SpeechResult }.

(** ** The gateway's stream objects

    A stream object is identified by its index in the list of all streams
    the gateway has handed out.  [writes] logs every [write(data)] call in
    call order, [end_calls] counts every [end()] call, [closed] is set when
    an [end()] call returned normally (a call that throws leaves the stream
    as it was) and [finished] when the stream emitted 'end' by itself. *)
Record RecognizeStream := {
  request : StreamingRequest;
  writes : list bytes;
  end_calls : nat;
  closed : bool;
  finished : bool
}.

Definition new_stream (req : StreamingRequest) : RecognizeStream :=
  {| request := req; writes := []; end_calls := 0; closed := false; finished := false |}.

Definition record_write (data : bytes) (s : RecognizeStream) : RecognizeStream :=
  {| request := request s; writes := writes s ++ [data]; end_calls := end_calls s;
     closed := closed s; finished := finished s |}.

Definition record_end (ok : bool) (s : RecognizeStream) : RecognizeStream :=
  {| request := request s; writes := writes s; end_calls := S (end_calls s);
     closed := closed s || ok; finished := finished s |}.

Definition record_finished (s : RecognizeStream) : RecognizeStream :=
  {| request := request s; writes := writes s; end_calls := end_calls s;
     closed := closed s; finished := true |}.

(** A stream is live while it neither finished by itself nor accepted a
    close request. *)
Definition live (s : RecognizeStream) : bool := negb (closed s) && negb (finished s).

(** ** Console output *)
Inductive LogArg :=
| Text (s : string)
| Obj (error : JsError).

Inductive LogLine :=
| ConsoleLog (args : list LogArg)
| ConsoleWarn (args : list LogArg)
| ConsoleError (args : list LogArg).

(** ** The world seen by one connection's handlers

    [V] is the record of closure variables of the revision at hand;
    [streams] holds the stream objects created by this connection's start
    handler, oldest first, and [recognize_calls] counts the calls of
    [streamingRecognize], failed ones included. *)
Record World (V : Type) := mkWorld {
  vars : V;
  streams : list RecognizeStream;
  recognize_calls : nat;
  emitted : list (string * string);
  console : list LogLine
}.
Arguments mkWorld {V}.
Arguments vars {V}.
Arguments streams {V}.
Arguments recognize_calls {V}.
Arguments emitted {V}.
Arguments console {V}.

(** ** Handler monad: state plus JavaScript exceptions *)
Inductive Completion (A : Type) :=
| Normal (a : A)
| Throw (e : JsError).
Arguments Normal {A}.
Arguments Throw {A}.

Definition M (V A : Type) := World V -> Completion A * World V.

Definition ret {V A} (a : A) : M V A := fun w => (Normal a, w).

Definition bind {V A B} (c : M V A) (k : A -> M V B) : M V B :=
  fun w => match c w with
           | (Normal a, w') => k a w'
           | (Throw e, w') => (Throw e, w')
           end.

Definition throw {V A} (e : JsError) : M V A := fun w => (Throw e, w).

(** [try { body } catch (error) { handler }] *)
Definition try_catch {V} (body : M V unit) (handler : JsError -> M V unit) : M V unit :=
  fun w => match body w with
           | (Normal a, w') => (Normal a, w')
           | (Throw e, w') => handler e w'
           end.

Declare Scope js_scope.
Delimit Scope js_scope with js.
Notation "x <- c ;; k" := (bind c (fun x => k))
  (at level 100, c at next level, right associativity) : js_scope.
Notation "c ;; k" := (bind c (fun _ => k))
  (at level 100, right associativity) : js_scope.

Definition get_vars {V} : M V V := fun w => (Normal (vars w), w).

Definition set_vars {V} (v : V) : M V unit :=
  fun w => (Normal tt, mkWorld v (streams w) (recognize_calls w) (emitted w) (console w)).

(** [socket.emit(event, payload)] *)
Definition socket_emit {V} (event payload : string) : M V unit :=
  fun w => (Normal tt, mkWorld (vars w) (streams w) (recognize_calls w)
                         (emitted w ++ [(event, payload)]) (console w)).

Definition console_log {V} (args : list LogArg) : M V unit :=
  fun w => (Normal tt, mkWorld (vars w) (streams w) (recognize_calls w)
                         (emitted w) (console w ++ [ConsoleLog args])).

Definition console_error {V} (args : list LogArg) : M V unit :=
  fun w => (Normal tt, mkWorld (vars w) (streams w) (recognize_calls w)
                         (emitted w) (console w ++ [ConsoleError args])).

(** [speechClient.streamingRecognize(req).on(..)...]: the call is counted;
    it either throws [fault] or hands out a fresh stream object, whose
    identifier is returned. *)
Definition streamingRecognize {V} (fault : option JsError) (req : StreamingRequest) : M V nat :=
  fun w =>
    match fault with
    | Some e => (Throw e, mkWorld (vars w) (streams w) (S (recognize_calls w))
                            (emitted w) (console w))
    | None => (Normal (length (streams w)),
               mkWorld (vars w) (streams w ++ [new_stream req]) (S (recognize_calls w))
                 (emitted w) (console w))
    end.

Definition update_stream {V} (sid : nat) (f : RecognizeStream -> RecognizeStream)
  (w : World V) : World V :=
  mkWorld (vars w) (alter f sid (streams w)) (recognize_calls w) (emitted w) (console w).

(** [stream.write(data)]: the call reaches the stream, then throws [fault]
    if the gateway so decides. *)
Definition stream_write {V} (fault : option JsError) (sid : nat) (data : bytes) : M V unit :=
  fun w =>
    let w' := update_stream sid (record_write data) w in
    match fault with
    | Some e => (Throw e, w')
    | None => (Normal tt, w')
    end.

(** [stream.end()] *)
Definition stream_end {V} (fault : option JsError) (sid : nat) : M V unit :=
  fun w =>
    match fault with
    | Some e => (Throw e, update_stream sid (record_end false) w)
    | None => (Normal tt, update_stream sid (record_end true) w)
    end.

(** The gateway delivers an event of stream [sid] to the listeners that
    were registered on it when it was created; a stream that was never
    handed out has no listeners. *)
Definition when_registered {V} (sid : nat) (listener : M V unit) : M V unit :=
  fun w => match streams w !! sid with
           | Some _ => listener w
           | None => (Normal tt, w)
           end.

(** The stream ends by itself (before its 'end' listeners run). *)
Definition stream_finishes {V} (sid : nat) : M V unit :=
  fun w => (Normal tt, update_stream sid record_finished w).

(** ** Transport and gateway events

    Each client event carries the exception, if any, that the one gateway
    call of its handler raises when it is reached. *)
Inductive Event :=
| StartStream (fault : option JsError)
| BinaryData (data : bytes) (fault : option JsError)
| EndStream (fault : option JsError)
| Disconnect (fault : option JsError)
| StreamError (sid : nat) (error : JsError)
| StreamData (sid : nat) (data : StreamingResponse)
| StreamEnd (sid : nat).

(** The fixed recognition configuration shared by all revisions. *)
Definition recognition_config : RecognitionConfig :=
  {| encoding := "WEBM_OPUS";
     sampleRateHertz := 48000%N;
     languageCode := "en-US";
     enableAutomaticPunctuation := true;
     model := "latest_short" |}.

(** Streams that are live in a world, by identifier. *)
Definition open_streams {V} (w : World V) : list nat :=
  List.filter (fun sid => match streams w !! sid with
                          | Some s => live s
                          | None => false
                          end) (seq 0 (length (streams w))).

(** JavaScript truthiness of a possibly absent object: [!x]. *)
Definition js_not {A} (x : option A) : bool :=
  match x with
  | Some _ => false
  | None => true
  end.

(** Parsed JSON; the parser itself is a parameter of the start-up code. *)
#[warnings="-register-all"] Inductive Json :=
| JNull
| JBool (b : bool)
| JNumber (n : N)
| JString (s : string)
| JArray (items : list Json)
| JObject (fields : list (string * Json)).

Record SpeechClient := { credentials : Json }.

(** [process.env.GOOGLE_APPLICATION_CREDENTIALS || '{}'] *)
Definition credentials_or_default (env_credentials : option string) : string :=
  match env_credentials with
  | None => "{}"
  | Some "" => "{}"
  | Some text => text
  end.

(** * Second document of src/unnamed/part_000 *)
Module Part000b.

Record Vars := mkVars {
recognizeStream : option nat;
isStreamEnded : bool
}.

Section StartUp.
(** [JSON.parse]; [Throw] stands for its SyntaxError. *)
Variable JSON_parse : string -> Completion Json.

(** [new SpeechClient({ credentials })]; the constructor may throw. *)
Variable new_SpeechClient : Json -> Completion SpeechClient.

(** [validateGoogleCredentials()], on the value of the environment
    variable GOOGLE_APPLICATION_CREDENTIALS; returns the verdict and what
    it printed. *)
Definition validateGoogleCredentials (credentials : option string) : bool * list LogLine :=
  match credentials with
  | None =>
      (false, [ConsoleError [Text "ERROR: GOOGLE_APPLICATION_CREDENTIALS environment variable is not set"]])
  | Some "" =>
      (false, [ConsoleError [Text "ERROR: GOOGLE_APPLICATION_CREDENTIALS environment variable is not set"]])
  | Some text =>
      match JSON_parse text with
      | Normal parsedCredentials => (true, [ConsoleLog [Text "Credentials loaded successfully"]])
      | Throw error => (false, [ConsoleError [Text "ERROR: Failed to parse Google credentials:"; Obj error]])
      end
  end.

Definition hasValidCredentials_of (credentials : option string) : bool :=
  fst (validateGoogleCredentials credentials).

(** The [speechClient] variable after start-up and what its initialisation
    printed; [Throw] is the fatal path, from [JSON.parse] or from the
    constructor, that the enclosing [catch] ends with [process.exit(1)]. *)
Definition speechClient_of (credentials : option string)
  : Completion (option SpeechClient) * list LogLine :=
  if hasValidCredentials_of credentials then
    match JSON_parse (credentials_or_default credentials) with
    | Normal json =>
        match new_SpeechClient json with
        | Normal client =>
            (Normal (Some client),
             [ConsoleLog [Text "Successfully initialized Google Speech-to-Text client"]])
        | Throw error => (Throw error, [ConsoleError [Text "Fatal server error:"; Obj error]])
        end
    | Throw error => (Throw error, [ConsoleError [Text "Fatal server error:"; Obj error]])
    end
  else
    (Normal None,
     [ConsoleWarn [Text "WARNING: Speech-to-Text functionality will not be available"]]).
End StartUp.

Definition request : StreamingRequest :=
{| config := recognition_config; interimResults := false |}.

Section Connection.
Variable hasValidCredentials : bool.
Variable speechClient : option SpeechClient.

Local Open Scope js_scope.

Definition set_isStreamEnded (b : bool) : M Vars unit :=
  v <- get_vars ;; set_vars (mkVars (recognizeStream v) b).

Definition set_recognizeStream (s : option nat) : M Vars unit :=
  v <- get_vars ;; set_vars (mkVars s (isStreamEnded v)).

(** [.on('error', ...)] *)
Definition on_error (error : JsError) : M Vars unit :=
  if negb (String.eqb (message error) "write after end") then
    console_error [Text "Speech recognition error:"; Obj error] ;;
    socket_emit "error" ("Speech recognition error: " +:+ message error)
  else ret tt.

(** [.on('data', ...)] *)
Definition on_data (data : StreamingResponse) : M Vars unit :=
  match head (results data) with
  | Some result =>
      match head (alternatives result) with
      | Some alternative => socket_emit "transcription" (transcript alternative)
      | None => ret tt
      end
  | None => ret tt
  end.

(** [.on('end', ...)] *)
Definition on_end : M Vars unit :=
  set_isStreamEnded true ;;
  set_recognizeStream None.

(** [socket.on("startStream", ...)] *)
Definition on_startStream (fault : option JsError) : M Vars unit :=
  if negb hasValidCredentials || js_not speechClient then
    socket_emit "error" "Speech-to-Text service is not configured"
  else
    try_catch
      (set_isStreamEnded false ;;
       stream <- streamingRecognize fault request ;;
       set_recognizeStream (Some stream))
      (fun error =>
         console_error [Text "Error starting stream:"; Obj error] ;;
         socket_emit "error" "Failed to start stream").

(** [socket.on("binaryData", ...)] *)
Definition on_binaryData (data : bytes) (fault : option JsError) : M Vars unit :=
  v <- get_vars ;;
  match recognizeStream v with
  | Some stream =>
      if negb (isStreamEnded v) then
        try_catch
          (stream_write fault stream data)
          (fun error =>
             console_error [Text "Error writing to stream:"; Obj error] ;;
             socket_emit "error" "Failed to process audio data")
      else ret tt
  | None => ret tt
  end.

(** [socket.on("endStream", ...)] *)
Definition on_endStream (fault : option JsError) : M Vars unit :=
  v <- get_vars ;;
  match recognizeStream v with
  | Some stream =>
      if negb (isStreamEnded v) then
        try_catch
          (set_isStreamEnded true ;;
           stream_end fault stream ;;
           set_recognizeStream None)
          (fun error => console_error [Text "Error ending stream:"; Obj error])
      else ret tt
  | None => ret tt
  end.

(** [socket.on("disconnect", ...)] *)
Definition on_disconnect (fault : option JsError) : M Vars unit :=
  console_log [Text "Client disconnected"] ;;
  v <- get_vars ;;
  match recognizeStream v with
  | Some stream =>
      if negb (isStreamEnded v) then
        try_catch
          (set_isStreamEnded true ;;
           stream_end fault stream ;;
           set_recognizeStream None)
          (fun error => console_error [Text "Error ending stream on disconnect:"; Obj error])
      else ret tt
  | None => ret tt
  end.

Definition dispatch (ev : Event) : M Vars unit :=
  match ev with
  | StartStream fault => on_startStream fault
  | BinaryData data fault => on_binaryData data fault
  | EndStream fault => on_endStream fault
  | Disconnect fault => on_disconnect fault
  | StreamError sid error => when_registered sid (on_error error)
  | StreamData sid data => when_registered sid (on_data data)
  | StreamEnd sid => when_registered sid (stream_finishes sid ;; on_end)
  end.

Definition step (w : World Vars) (ev : Event) : World Vars := snd (dispatch ev w).

Definition run (w : World Vars) (evs : list Event) : World Vars := fold_left step evs w.

(** The state right after [io.on("connection", ...)] ran for a socket. *)
Definition connected : World Vars :=
  mkWorld (mkVars None false) [] 0 [] [ConsoleLog [Text "Client connected"]].
End Connection.

End Part000b.

(** * src/server.ts *)
Module ServerTs.

Record Vars := mkVars {
recognizeStream : option nat
}.

(** [new SpeechClient({ credentials: JSON.parse(... || '{}') })] at module
    level; a [Throw], from [JSON.parse] or from the constructor, is an
    uncaught exception while the module loads. *)
Definition speechClient_of (JSON_parse : string -> Completion Json)
  (new_SpeechClient : Json -> Completion SpeechClient)
  (env_credentials : option string) : Completion SpeechClient :=
  match JSON_parse (credentials_or_default env_credentials) with
  | Normal json => new_SpeechClient json
  | Throw error => Throw error
  end.

Definition request : StreamingRequest :=
{| config := recognition_config; interimResults := true |}.

Section Connection.
Local Open Scope js_scope.

(** [.on('error', console.error)] *)
Definition on_error (error : JsError) : M Vars unit :=
  console_error [Obj error].

(** [.on('data', ...)] *)
Definition on_data (data : StreamingResponse) : M Vars unit :=
  match head (results data) with
  | Some result =>
      match head (alternatives result) with
      | Some alternative => socket_emit "transcription" (transcript alternative)
      | None => throw TypeError_transcript
      end
  | None => ret tt
  end.

(** [socket.on("startStream", ...)] *)
Definition on_startStream (fault : option JsError) : M Vars unit :=
  stream <- streamingRecognize fault request ;;
  set_vars (mkVars (Some stream)).

(** [socket.on("binaryData", ...)] *)
Definition on_binaryData (data : bytes) (fault : option JsError) : M Vars unit :=
  v <- get_vars ;;
  match recognizeStream v with
  | Some stream => stream_write fault stream data
  | None => ret tt
  end.

(** [socket.on("endStream", ...)] *)
Definition on_endStream (fault : option JsError) : M Vars unit :=
  v <- get_vars ;;
  match recognizeStream v with
  | Some stream => stream_end fault stream
  | None => ret tt
  end.

(** [socket.on("disconnect", ...)] *)
Definition on_disconnect (fault : option JsError) : M Vars unit :=
  console_log [Text "Client disconnected"] ;;
  v <- get_vars ;;
  match recognizeStream v with
  | Some stream => stream_end fault stream
  | None => ret tt
  end.

(** No 'end' listener is registered in this revision. *)
Definition dispatch (ev : Event) : M Vars unit :=
  match ev with
  | StartStream fault => on_startStream fault
  | BinaryData data fault => on_binaryData data fault
  | EndStream fault => on_endStream fault
  | Disconnect fault => on_disconnect fault
  | StreamError sid error => when_registered sid (on_error error)
  | StreamData sid data => when_registered sid (on_data data)
  | StreamEnd sid => when_registered sid (stream_finishes sid)
  end.

Definition step (w : World Vars) (ev : Event) : World Vars := snd (dispatch ev w).

Definition run (w : World Vars) (evs : list Event) : World Vars := fold_left step evs w.

Definition connected : World Vars :=
  mkWorld (mkVars None) [] 0 [] [ConsoleLog [Text "Client connected"]].
End Connection.

End ServerTs.

(** * First document of src/unnamed/part_000 *)
Module Part000a.

Record Vars := mkVars {
recognizeStream : option nat
}.

Definition request : StreamingRequest :=
{| config := recognition_config; interimResults := true |}.

Section Connection.
Local Open Scope js_scope.

(** [.on('error', ...)] *)
Definition on_error (error : JsError) : M Vars unit :=
  console_error [Text "Speech recognition error:"; Obj error] ;;
  socket_emit "error" "Speech recognition error occurred".

(** [.on('data', ...)] *)
Definition on_data (data : StreamingResponse) : M Vars unit :=
  match head (results data) with
  | Some result =>
      match head (alternatives result) with
      | Some alternative => socket_emit "transcription" (transcript alternative)
      | None => throw TypeError_transcript
      end
  | None => ret tt
  end.

(** [socket.on("startStream", ...)] *)
Definition on_startStream (fault : option JsError) : M Vars unit :=
  try_catch
    (stream <- streamingRecognize fault request ;;
     set_vars (mkVars (Some stream)))
    (fun error =>
       console_error [Text "Error starting stream:"; Obj error] ;;
       socket_emit "error" "Failed to start stream").

(** [socket.on("binaryData", ...)] *)
Definition on_binaryData (data : bytes) (fault : option JsError) : M Vars unit :=
  v <- get_vars ;;
  match recognizeStream v with
  | Some stream =>
      try_catch
        (stream_write fault stream data)
        (fun error =>
           console_error [Text "Error writing to stream:"; Obj error] ;;
           socket_emit "error" "Failed to process audio data")
  | None => ret tt
  end.

(** [socket.on("endStream", ...)] *)
Definition on_endStream (fault : option JsError) : M Vars unit :=
  v <- get_vars ;;
  match recognizeStream v with
  | Some stream =>
      try_catch
        (stream_end fault stream)
        (fun error => console_error [Text "Error ending stream:"; Obj error])
  | None => ret tt
  end.

(** [socket.on("disconnect", ...)] *)
Definition on_disconnect (fault : option JsError) : M Vars unit :=
  console_log [Text "Client disconnected"] ;;
  v <- get_vars ;;
  match recognizeStream v with
  | Some stream =>
      try_catch
        (stream_end fault stream)
        (fun error => console_error [Text "Error ending stream on disconnect:"; Obj error])
  | None => ret tt
  end.

Definition dispatch (ev : Event) : M Vars unit :=
  match ev with
  | StartStream fault => on_startStream fault
  | BinaryData data fault => on_binaryData data fault
  | EndStream fault => on_endStream fault
  | Disconnect fault => on_disconnect fault
  | StreamError sid error => when_registered sid (on_error error)
  | StreamData sid data => when_registered sid (on_data data)
  | StreamEnd sid => when_registered sid (stream_finishes sid)
  end.

Definition step (w : World Vars) (ev : Event) : World Vars := snd (dispatch ev w).

Definition run (w : World Vars) (evs : list Event) : World Vars := fold_left step evs w.

Definition connected : World Vars :=
  mkWorld (mkVars None) [] 0 [] [ConsoleLog [Text "Client connected"]].
End Connection.

End Part000a.

(** * Event sequences *)

(** A client sending audio: one [BinaryData] event per chunk, each with the
    outcome the gateway's [write] would have. *)
Definition chunk_events (chunks : list (bytes * option JsError)) : list Event :=
  map (fun chunk => BinaryData (fst chunk) (snd chunk)) chunks.

Definition is_start (ev : Event) : bool :=
  match ev with
  | StartStream _ => true
  | _ => false
  end.

(** Events that neither start nor stop a stream: audio chunks and the
    gateway's 'data' and 'error' events. *)
Definition is_quiet (ev : Event) : bool :=
  match ev with
  | BinaryData _ _ | StreamError _ _ | StreamData _ _ => true
  | _ => false
  end.

(** The audio payloads of an event sequence, in arrival order. *)
Fixpoint payloads (evs : list Event) : list bytes :=
  match evs with
  | [] => []
  | BinaryData data _ :: rest => data :: payloads rest
  | _ :: rest => payloads rest
  end.

(** The session refers, if at all, to the stream that was handed out last,
    and that stream is live. *)
Definition session_inv (w : World Part000b.Vars) : Prop :=
  forall stream,
    Part000b.recognizeStream (vars w) = Some stream ->
    S stream = length (streams w)
    /\ exists s, streams w !! stream = Some s /\ live s = true.

(** In src/server.ts the session refers, if at all, to the stream that was
    handed out last. *)
Definition refers_to_newest (w : World ServerTs.Vars) : Prop :=
  forall stream,
    ServerTs.recognizeStream (vars w) = Some stream ->
    S stream = length (streams w).

Definition stop_or_disconnect (ev : Event) : bool :=
  match ev with
  | EndStream _ | Disconnect _ => true
  | _ => false
  end.

(** ** Sample inputs *)

Definition sample_client : SpeechClient := {| credentials := JObject [] |}.

Definition sample_error : JsError := {| message := "stream destroyed" |}.

Definition write_after_end : JsError := {| message := "write after end" |}.

Definition chunk1 : bytes := [Byte.x1a; Byte.x45; Byte.xdf; Byte.xa3].

Definition chunk2 : bytes := [Byte.x9f; Byte.x42].

(** A response whose first result carries no alternative. *)
Definition empty_alternatives : StreamingResponse :=
  {| results := [{| alternatives := [] |}] |}.

(** A [JSON.parse] that accepts every text as the empty object. *)
Definition accepting_parser (text : string) : Completion Json := Normal (JObject []).

(** A constructor that builds the client, and one that throws. *)
Definition building_constructor (json : Json) : Completion SpeechClient :=
  Normal {| credentials := json |}.


(** A [JSON.parse] that rejects every text. *)
Definition rejecting_parser (text : string) : Completion Json :=
  Throw {| message := "Unexpected token" |}.

(** * The HTTP surface of the second document of part_000 *)
Module Http.

(** [app.get('/', ...)]: the body passed to [res.json]; [now] is
    [new Date().toISOString()]. *)
Definition root (hasValidCredentials : bool) (now : string) : Json :=
  JObject [("status", JString "Server is running");
           ("googleCredentials",
            JString (if hasValidCredentials then "configured" else "missing or invalid"));
           ("timestamp", JString now)].

(** [app.get('/health', ...)] *)
Definition health (now : string) : Json :=
  JObject [("status", JString "ok");
           ("timestamp", JString now);
           ("socketio", JString "enabled");
           ("cors", JString "enabled")].

End Http.

(** Property access on a parsed JSON object. *)
Definition json_field (name : string) (json : Json) : option Json :=
  match json with
  | JObject fields =>
      match List.find (fun field => String.eqb (fst field) name) fields with
      | Some field => Some (snd field)
      | None => None
      end
  | _ => None
  end.

(** ** Counting events *)

Definition count_starts (evs : list Event) : nat := length (List.filter is_start evs).

Definition is_successful_start (ev : Event) : bool :=
  match ev with
  | StartStream None => true
  | _ => false
  end.

Definition count_successful_starts (evs : list Event) : nat :=
  length (List.filter is_successful_start evs).

Definition count_stops (evs : list Event) : nat :=
  length (List.filter stop_or_disconnect evs).

(** Whether a gateway call raises. *)
Definition throws (fault : option JsError) : bool :=
  match fault with
  | Some _ => true
  | None => false
  end.

Definition count_failed_writes (chunks : list (bytes * option JsError)) : nat :=
  length (List.filter (fun chunk => throws (snd chunk)) chunks).

(** The exception that the gateway call of a client event raises, if the
    call is reached. *)
Definition fault_of (ev : Event) : option JsError :=
  match ev with
  | StartStream fault | BinaryData _ fault | EndStream fault | Disconnect fault => fault
  | _ => None
  end.

Definition is_client_event (ev : Event) : bool :=
  match ev with
  | StartStream _ | BinaryData _ _ | EndStream _ | Disconnect _ => true
  | _ => false
  end.

(** The gateway delivering results: one 'data' event per response, each on
    the stream it belongs to. *)
Definition data_events (responses : list (nat * StreamingResponse)) : list Event :=
  map (fun response => StreamData (fst response) (snd response)) responses.

(** The text of the first alternative of the first result, if there is one. *)
Definition first_transcript (data : StreamingResponse) : option string :=
  match head (results data) with
  | Some result =>
      match head (alternatives result) with
      | Some alternative => Some (transcript alternative)
      | None => None
      end
  | None => None
  end.

(** The events the second document of part_000 can send to a client. *)
Definition outbound_vocabulary (sent : string * string) : Prop :=
  fst sent = "transcription"
  \/ (fst sent = "error"
      /\ (snd sent = "Speech-to-Text service is not configured"
          \/ snd sent = "Failed to start stream"
          \/ snd sent = "Failed to process audio data"
          \/ exists msg, msg <> "write after end"
                         /\ snd sent = "Speech recognition error: " +:+ msg)).

(** * Proofs *)

Ltac js_unfold :=
  unfold bind, try_catch, ret, throw, get_vars, set_vars, socket_emit,
    console_log, console_error, streamingRecognize, stream_write, stream_end,
    when_registered, stream_finishes, update_stream in *.

Ltac b_unfold :=
  unfold Part000b.step, Part000b.dispatch, Part000b.on_startStream,
    Part000b.on_binaryData, Part000b.on_endStream, Part000b.on_disconnect,
    Part000b.on_error, Part000b.on_data, Part000b.on_end,
    Part000b.set_isStreamEnded, Part000b.set_recognizeStream in *;
  js_unfold; cbn [vars streams recognize_calls emitted console
                  Part000b.recognizeStream Part000b.isStreamEnded fst snd] in *.

Ltac s_unfold :=
  unfold ServerTs.step, ServerTs.dispatch, ServerTs.on_startStream,
    ServerTs.on_binaryData, ServerTs.on_endStream, ServerTs.on_disconnect,
    ServerTs.on_error, ServerTs.on_data in *;
  js_unfold; cbn [vars streams recognize_calls emitted console
                  ServerTs.recognizeStream fst snd] in *.

Lemma alter_last {A} (f : A -> A) (l : list A) (x : A) :
  alter f (length l) (l ++ [x]) = l ++ [f x].
Proof.
  pose proof (alter_app_r f l [x] 0) as H. rewrite Nat.add_0_r in H. exact H.
Qed.

Lemma run_app_b hv sc w evs1 evs2 :
  Part000b.run hv sc w (evs1 ++ evs2) = Part000b.run hv sc (Part000b.run hv sc w evs1) evs2.
Proof. unfold Part000b.run. apply fold_left_app. Qed.

Lemma run_app_s w evs1 evs2 :
  ServerTs.run w (evs1 ++ evs2) = ServerTs.run (ServerTs.run w evs1) evs2.
Proof. unfold ServerTs.run. apply fold_left_app. Qed.

Lemma run_cons_b hv sc w ev evs :
  Part000b.run hv sc w (ev :: evs) = Part000b.run hv sc (Part000b.step hv sc w ev) evs.
Proof. reflexivity. Qed.

Lemma run_cons_s w ev evs :
  ServerTs.run w (ev :: evs) = ServerTs.run (ServerTs.step w ev) evs.
Proof. reflexivity. Qed.

Lemma run_snoc_b hv sc w evs ev :
  Part000b.run hv sc w (evs ++ [ev]) = Part000b.step hv sc (Part000b.run hv sc w evs) ev.
Proof. rewrite run_app_b. reflexivity. Qed.

(** ** Audio before any start *)

Section Session.
Variable hasValidCredentials : bool.
Variable speechClient : option SpeechClient.

Local Abbreviation stepB := (Part000b.step hasValidCredentials speechClient).
Local Abbreviation runB := (Part000b.run hasValidCredentials speechClient).
Local Abbreviation dispatchB := (Part000b.dispatch hasValidCredentials speechClient).

(** Without a stream reference an audio chunk changes nothing. *)
Lemma binaryData_without_stream_b (w : World Part000b.Vars) data fault :
  Part000b.recognizeStream (vars w) = None ->
  dispatchB (BinaryData data fault) w = (Normal tt, w).
Proof.
  destruct w as [[rs ended] strs rc em co]. cbn. intros ->. reflexivity.
Qed.

Lemma chunks_without_stream_b (w : World Part000b.Vars) chunks :
  Part000b.recognizeStream (vars w) = None ->
  runB w (chunk_events chunks) = w.
Proof.
  intros Hnone. induction chunks as [|[data fault] chunks IH]; [reflexivity|].
  cbn. unfold Part000b.step. rewrite binaryData_without_stream_b by assumption.
  exact IH.
Qed.

(** Before the first start no stream object exists and none is referenced. *)
Lemma no_start_no_stream_b pre :
  Forall (fun ev => is_start ev = false) pre ->
  streams (runB Part000b.connected pre) = []
  /\ Part000b.recognizeStream (vars (runB Part000b.connected pre)) = None.
Proof.
  induction pre as [|ev pre IH] using rev_ind; [intros _; split; reflexivity|].
  intros Hall. apply Forall_app in Hall as [Hpre Hev].
  apply Forall_cons in Hev as [Hev _].
  specialize (IH Hpre) as [Hs Hr].
  rewrite run_snoc_b.
  destruct (runB Part000b.connected pre) as [[rs ended] strs rc em co].
  cbn in Hs, Hr. subst.
  destruct ev; try discriminate Hev; split; reflexivity.
Qed.

Lemma binaryData_without_stream_s (w : World ServerTs.Vars) data fault :
  ServerTs.recognizeStream (vars w) = None ->
  ServerTs.dispatch (BinaryData data fault) w = (Normal tt, w).
Proof.
  destruct w as [[rs] strs rc em co]. cbn. intros ->. reflexivity.
Qed.

Lemma chunks_without_stream_s (w : World ServerTs.Vars) chunks :
  ServerTs.recognizeStream (vars w) = None ->
  ServerTs.run w (chunk_events chunks) = w.
Proof.
  intros Hnone. induction chunks as [|[data fault] chunks IH]; [reflexivity|].
  cbn. unfold ServerTs.step. rewrite binaryData_without_stream_s by assumption.
  exact IH.
Qed.

Lemma no_start_no_stream_s pre :
  Forall (fun ev => is_start ev = false) pre ->
  streams (ServerTs.run ServerTs.connected pre) = []
  /\ ServerTs.recognizeStream (vars (ServerTs.run ServerTs.connected pre)) = None.
Proof.
  induction pre as [|ev pre IH] using rev_ind; [intros _; split; reflexivity|].
  intros Hall. apply Forall_app in Hall as [Hpre Hev].
  apply Forall_cons in Hev as [Hev _].
  specialize (IH Hpre) as [Hs Hr].
  rewrite run_app_s. cbn.
  destruct (ServerTs.run ServerTs.connected pre) as [[rs] strs rc em co].
  cbn in Hs, Hr. subst.
  destruct ev; try discriminate Hev; split; reflexivity.
Qed.

(** C8: audio chunks that arrive before any start signal are dropped, in
    the guarded revision and in src/server.ts alike.  No stream object
    exists, so no byte is forwarded; the world after the chunks is the world
    before them, so nothing is kept for later; and whatever happens
    afterwards happens exactly as if the chunks had never arrived. *)
Theorem audio_before_start_is_dropped pre chunks later :
  Forall (fun ev => is_start ev = false) pre ->
  (streams (runB Part000b.connected (pre ++ chunk_events chunks)) = []
   /\ runB Part000b.connected (pre ++ chunk_events chunks) = runB Part000b.connected pre
   /\ runB Part000b.connected (pre ++ chunk_events chunks ++ later)
      = runB Part000b.connected (pre ++ later))
  /\
  (streams (ServerTs.run ServerTs.connected (pre ++ chunk_events chunks)) = []
   /\ ServerTs.run ServerTs.connected (pre ++ chunk_events chunks)
      = ServerTs.run ServerTs.connected pre
   /\ ServerTs.run ServerTs.connected (pre ++ chunk_events chunks ++ later)
      = ServerTs.run ServerTs.connected (pre ++ later)).
Proof.
  intros Hpre.
  destruct (no_start_no_stream_b pre Hpre) as [Hsb Hrb].
  destruct (no_start_no_stream_s pre Hpre) as [Hss Hrs].
  assert (Hb : runB Part000b.connected (pre ++ chunk_events chunks)
               = runB Part000b.connected pre).
  { rewrite run_app_b. apply chunks_without_stream_b. exact Hrb. }
  assert (Hs : ServerTs.run ServerTs.connected (pre ++ chunk_events chunks)
               = ServerTs.run ServerTs.connected pre).
  { rewrite run_app_s. apply chunks_without_stream_s. exact Hrs. }
  split; (split; [|split]).
  - rewrite Hb. exact Hsb.
  - exact Hb.
  - rewrite app_assoc, run_app_b, Hb, <- run_app_b. reflexivity.
  - rewrite Hs. exact Hss.
  - exact Hs.
  - rewrite app_assoc, run_app_s, Hs, <- run_app_s. reflexivity.
Qed.

(** ** The gateway's 'error' event *)

(** Second document of part_000: the 'error' listener of a stream drops an error whose message is
    exactly "write after end" (nothing is emitted, nothing changes) and
    reports every other error to the client as one 'error' event carrying
    the message. *)
Theorem upstream_error_filter (w : World Part000b.Vars) sid error :
  is_Some (streams w !! sid) ->
  (message error = "write after end" ->
   dispatchB (StreamError sid error) w = (Normal tt, w))
  /\
  (message error <> "write after end" ->
   emitted (stepB w (StreamError sid error))
   = emitted w ++ [("error", "Speech recognition error: " +:+ message error)]).
Proof.
  intros [s Hs]. destruct w as [[rs ended] strs rc em co]. cbn in Hs.
  b_unfold. rewrite Hs. split; intros Hmsg.
  - rewrite Hmsg. reflexivity.
  - apply String.eqb_neq in Hmsg. rewrite Hmsg. reflexivity.
Qed.

(** ** Invalid credentials *)

(** Second document of part_000: when [validateGoogleCredentials] rejects the environment at
    start-up, no client is built and a start signal does exactly one thing:
    it emits the "not configured" error.  The closure variables, the stream
    objects and the count of [streamingRecognize] calls stay as they were. *)
Theorem start_without_credentials JSON_parse new_client env (w : World Part000b.Vars) fault :
  Part000b.hasValidCredentials_of JSON_parse env = false ->
  fst (Part000b.speechClient_of JSON_parse new_client env) = Normal None
  /\ forall client,
      Part000b.dispatch (Part000b.hasValidCredentials_of JSON_parse env) client
        (StartStream fault) w
      = (Normal tt,
         mkWorld (vars w) (streams w) (recognize_calls w)
           (emitted w ++ [("error", "Speech-to-Text service is not configured")])
           (console w)).
Proof.
  intros Hinvalid. split.
  - unfold Part000b.speechClient_of. rewrite Hinvalid. reflexivity.
  - intros client. rewrite Hinvalid. reflexivity.
Qed.

(** ** Stop and disconnect *)

(** The handler of a stop or disconnect signal returns normally and emits
    nothing, whatever [end()] does. *)
Lemma stop_emits_nothing (w : World Part000b.Vars) ev :
  stop_or_disconnect ev = true ->
  fst (dispatchB ev w) = Normal tt /\ emitted (stepB w ev) = emitted w.
Proof.
  destruct w as [[[s|] [|]] strs rc em co];
    destruct ev as [| | [e|] | [e|] | | |]; try discriminate; intros _;
    split; reflexivity.
Qed.

(** Second document of part_000: in every state, the handlers of the stop and of the disconnect
    signal return normally and emit nothing on the socket, whether [end()]
    returns or throws; when [end()] throws on the referenced, not yet ended
    stream, the failure shows on the console only. *)
Theorem stop_and_disconnect_are_silent (w : World Part000b.Vars) fault :
  (fst (dispatchB (EndStream fault) w) = Normal tt
   /\ emitted (stepB w (EndStream fault)) = emitted w)
  /\
  (fst (dispatchB (Disconnect fault) w) = Normal tt
   /\ emitted (stepB w (Disconnect fault)) = emitted w)
  /\
  (forall stream error,
      Part000b.recognizeStream (vars w) = Some stream ->
      Part000b.isStreamEnded (vars w) = false ->
      console (stepB w (EndStream (Some error)))
      = console w ++ [ConsoleError [Text "Error ending stream:"; Obj error]]
      /\ console (stepB w (Disconnect (Some error)))
         = console w ++ [ConsoleLog [Text "Client disconnected"];
                         ConsoleError [Text "Error ending stream on disconnect:"; Obj error]]).
Proof.
  split; [|split].
  - apply stop_emits_nothing. reflexivity.
  - apply stop_emits_nothing. reflexivity.
  - intros stream error Hs He.
    destruct w as [[rs ended] strs rc em co]. cbn in Hs, He. subst.
    split; cbn; [reflexivity|].
    rewrite <- app_assoc. reflexivity.
Qed.

(** Second document of part_000: a stop signal never fails and never emits; it records at most one
    [end()] call, on the referenced stream; afterwards the reference is
    cleared or, when [end()] threw, [isStreamEnded] is set; a second stop
    right after it changes nothing at all, so no second close request is
    issued; a stop with no stream, or with the flag already set, changes
    nothing; and a disconnect after a stop leaves every stream object, the
    closure variables and the socket untouched. *)
Theorem stop_is_idempotent (w : World Part000b.Vars) fault1 fault2 :
  let w1 := stepB w (EndStream fault1) in
  let w2 := stepB w1 (Disconnect fault2) in
  (fst (dispatchB (EndStream fault1) w) = Normal tt /\ emitted w1 = emitted w)
  /\ (streams w1 = streams w
      \/ exists stream,
          Part000b.recognizeStream (vars w) = Some stream
          /\ Part000b.isStreamEnded (vars w) = false
          /\ streams w1 = alter (record_end (bool_decide (fault1 = None))) stream (streams w))
  /\ (Part000b.recognizeStream (vars w1) = None \/ Part000b.isStreamEnded (vars w1) = true)
  /\ (fault1 = None -> Part000b.isStreamEnded (vars w) = false ->
      Part000b.recognizeStream (vars w1) = None)
  /\ dispatchB (EndStream fault2) w1 = (Normal tt, w1)
  /\ (Part000b.recognizeStream (vars w) = None \/ Part000b.isStreamEnded (vars w) = true ->
      dispatchB (EndStream fault1) w = (Normal tt, w))
  /\ (fst (dispatchB (Disconnect fault2) w1) = Normal tt
      /\ streams w2 = streams w1 /\ vars w2 = vars w1
      /\ emitted w2 = emitted w1 /\ recognize_calls w2 = recognize_calls w1).
Proof.
  destruct w as [[[s|] [|]] strs rc em co]; destruct fault1 as [e1|];
    cbn; repeat split; try (left; reflexivity); try (right; reflexivity);
    try tauto; try discriminate;
    try (right; exists s; repeat split; reflexivity);
    try (intros [H|H]; discriminate H).
Qed.

(** ** The gateway's 'end' event *)

(** Second document of part_000: when a stream that the gateway handed out
    emits 'end', the listener
    returns normally and leaves [recognizeStream = null] and
    [isStreamEnded = true]; from then on every audio chunk leaves the world
    exactly as it is: no [write] is attempted, nothing is emitted, nothing
    is thrown. *)
Theorem upstream_end_drops_later_chunks (w : World Part000b.Vars) sid chunks :
  is_Some (streams w !! sid) ->
  let w1 := stepB w (StreamEnd sid) in
  fst (dispatchB (StreamEnd sid) w) = Normal tt
  /\ vars w1 = Part000b.mkVars None true
  /\ streams w1 = alter record_finished sid (streams w)
  /\ (forall data fault, dispatchB (BinaryData data fault) w1 = (Normal tt, w1))
  /\ runB w1 (chunk_events chunks) = w1.
Proof.
  intros [s Hs] w1.
  assert (Hv : vars w1 = Part000b.mkVars None true).
  { subst w1. destruct w as [[rs ended] strs rc em co]. cbn in Hs.
    b_unfold. rewrite Hs. reflexivity. }
  repeat split.
  - destruct w as [[rs ended] strs rc em co]. cbn in Hs. b_unfold.
    rewrite Hs. reflexivity.
  - exact Hv.
  - subst w1. destruct w as [[rs ended] strs rc em co]. cbn in Hs.
    b_unfold. rewrite Hs. reflexivity.
  - intros data fault. apply binaryData_without_stream_b. rewrite Hv. reflexivity.
  - apply chunks_without_stream_b. rewrite Hv. reflexivity.
Qed.

(** ** Forwarding audio *)

(** While the session refers to the newest stream and the flag is clear,
    audio chunks and the gateway's 'data' and 'error' events append the
    chunks' payloads to that stream's write log and touch nothing else of
    the streams or the closure variables. *)
Lemma quiet_events_forward_b evs : forall (w : World Part000b.Vars) older s,
  Forall (fun ev => is_quiet ev = true) evs ->
  vars w = Part000b.mkVars (Some (length older)) false ->
  streams w = older ++ [s] ->
  vars (runB w evs) = Part000b.mkVars (Some (length older)) false
  /\ streams (runB w evs)
     = older ++ [{| request := request s; writes := writes s ++ payloads evs;
                    end_calls := end_calls s; closed := closed s;
                    finished := finished s |}].
Proof.
  induction evs as [|ev evs IH]; intros w older s Hq Hv Hs.
  - cbn. rewrite app_nil_r. destruct s. split; assumption.
  - apply Forall_cons in Hq as [Hev Hq]. rewrite run_cons_b.
    destruct w as [[rs ended] strs rc em co]. cbn in Hv, Hs.
    injection Hv as -> ->. subst strs.
    destruct ev as [| data fault | | | sid error | sid data |]; try discriminate Hev.
    + assert (Hw : vars (stepB (mkWorld (Part000b.mkVars (Some (length older)) false)
                                  (older ++ [s]) rc em co) (BinaryData data fault))
                   = Part000b.mkVars (Some (length older)) false
                   /\ streams (stepB (mkWorld (Part000b.mkVars (Some (length older)) false)
                                        (older ++ [s]) rc em co) (BinaryData data fault))
                      = older ++ [record_write data s]).
      { destruct fault; cbn; rewrite alter_last; split; reflexivity. }
      destruct Hw as [Hv' Hs'].
      destruct (IH _ older (record_write data s) Hq Hv' Hs') as [IHv IHs].
      split; [exact IHv|]. rewrite IHs. cbn. rewrite <- app_assoc. reflexivity.
    + assert (Hw : vars (stepB (mkWorld (Part000b.mkVars (Some (length older)) false)
                                  (older ++ [s]) rc em co) (StreamError sid error))
                   = Part000b.mkVars (Some (length older)) false
                   /\ streams (stepB (mkWorld (Part000b.mkVars (Some (length older)) false)
                                        (older ++ [s]) rc em co) (StreamError sid error))
                      = older ++ [s]).
      { b_unfold. destruct ((older ++ [s]) !! sid); [|split; reflexivity].
        destruct (negb _); split; reflexivity. }
      destruct Hw as [Hv' Hs'].
      exact (IH _ older s Hq Hv' Hs').
    + assert (Hw : vars (stepB (mkWorld (Part000b.mkVars (Some (length older)) false)
                                  (older ++ [s]) rc em co) (StreamData sid data))
                   = Part000b.mkVars (Some (length older)) false
                   /\ streams (stepB (mkWorld (Part000b.mkVars (Some (length older)) false)
                                        (older ++ [s]) rc em co) (StreamData sid data))
                      = older ++ [s]).
      { b_unfold. destruct ((older ++ [s]) !! sid); [|split; reflexivity].
        destruct (head (results data)) as [res|]; [|split; reflexivity].
        destruct (head (alternatives res)); split; reflexivity. }
      destruct Hw as [Hv' Hs'].
      exact (IH _ older s Hq Hv' Hs').
Qed.

Lemma quiet_events_forward_s evs : forall (w : World ServerTs.Vars) older s,
  Forall (fun ev => is_quiet ev = true) evs ->
  vars w = ServerTs.mkVars (Some (length older)) ->
  streams w = older ++ [s] ->
  vars (ServerTs.run w evs) = ServerTs.mkVars (Some (length older))
  /\ streams (ServerTs.run w evs)
     = older ++ [{| request := request s; writes := writes s ++ payloads evs;
                    end_calls := end_calls s; closed := closed s;
                    finished := finished s |}].
Proof.
  induction evs as [|ev evs IH]; intros w older s Hq Hv Hs.
  - cbn. rewrite app_nil_r. destruct s. split; assumption.
  - apply Forall_cons in Hq as [Hev Hq]. rewrite run_cons_s.
    destruct w as [[rs] strs rc em co]. cbn in Hv, Hs.
    injection Hv as ->. subst strs.
    destruct ev as [| data fault | | | sid error | sid data |]; try discriminate Hev.
    + assert (Hw : vars (ServerTs.step (mkWorld (ServerTs.mkVars (Some (length older)))
                                  (older ++ [s]) rc em co) (BinaryData data fault))
                   = ServerTs.mkVars (Some (length older))
                   /\ streams (ServerTs.step (mkWorld (ServerTs.mkVars (Some (length older)))
                                        (older ++ [s]) rc em co) (BinaryData data fault))
                      = older ++ [record_write data s]).
      { destruct fault; cbn; rewrite alter_last; split; reflexivity. }
      destruct Hw as [Hv' Hs'].
      destruct (IH _ older (record_write data s) Hq Hv' Hs') as [IHv IHs].
      split; [exact IHv|]. rewrite IHs. cbn. rewrite <- app_assoc. reflexivity.
    + assert (Hw : vars (ServerTs.step (mkWorld (ServerTs.mkVars (Some (length older)))
                                  (older ++ [s]) rc em co) (StreamError sid error))
                   = ServerTs.mkVars (Some (length older))
                   /\ streams (ServerTs.step (mkWorld (ServerTs.mkVars (Some (length older)))
                                        (older ++ [s]) rc em co) (StreamError sid error))
                      = older ++ [s]).
      { s_unfold. destruct ((older ++ [s]) !! sid); split; reflexivity. }
      destruct Hw as [Hv' Hs'].
      exact (IH _ older s Hq Hv' Hs').
    + assert (Hw : vars (ServerTs.step (mkWorld (ServerTs.mkVars (Some (length older)))
                                  (older ++ [s]) rc em co) (StreamData sid data))
                   = ServerTs.mkVars (Some (length older))
                   /\ streams (ServerTs.step (mkWorld (ServerTs.mkVars (Some (length older)))
                                        (older ++ [s]) rc em co) (StreamData sid data))
                      = older ++ [s]).
      { s_unfold. destruct ((older ++ [s]) !! sid); [|split; reflexivity].
        destruct (head (results data)) as [res|]; [|split; reflexivity].
        destruct (head (alternatives res)); split; reflexivity. }
      destruct Hw as [Hv' Hs'].
      exact (IH _ older s Hq Hv' Hs').
Qed.

Lemma chunk_events_quiet chunks : Forall (fun ev => is_quiet ev = true) (chunk_events chunks).
Proof. induction chunks; constructor; [reflexivity | assumption]. Qed.

Lemma payloads_chunk_events chunks : payloads (chunk_events chunks) = map fst chunks.
Proof.
  induction chunks as [|c chunks IH]; [reflexivity|].
  change (fst c :: payloads (chunk_events chunks) = fst c :: map fst chunks).
  rewrite IH. reflexivity.
Qed.

(** C3: a start signal that succeeds (the backend is configured and
    [streamingRecognize] returns) installs a fresh stream with an empty write
    log.  After any sequence of audio chunks that follows, possibly
    interleaved with 'data' and 'error' events of the gateway and whatever
    the individual [write] calls do, the write log of that stream is exactly
    the list of the chunks' payloads in arrival order, the session still
    refers to it, and every older stream is untouched.  The same holds for
    src/server.ts. *)
Theorem audio_is_forwarded_in_order client (w : World Part000b.Vars)
    (ws : World ServerTs.Vars) evs :
  hasValidCredentials = true ->
  speechClient = Some client ->
  Forall (fun ev => is_quiet ev = true) evs ->
  (let stream := length (streams w) in
   let w1 := stepB w (StartStream None) in
   let w2 := runB w1 evs in
   vars w1 = Part000b.mkVars (Some stream) false
   /\ streams w1 = streams w ++ [new_stream Part000b.request]
   /\ vars w2 = Part000b.mkVars (Some stream) false
   /\ streams w2
      = streams w ++ [{| request := Part000b.request; writes := payloads evs;
                         end_calls := 0; closed := false; finished := false |}])
  /\
  (let stream := length (streams ws) in
   let w1 := ServerTs.step ws (StartStream None) in
   let w2 := ServerTs.run w1 evs in
   vars w1 = ServerTs.mkVars (Some stream)
   /\ streams w1 = streams ws ++ [new_stream ServerTs.request]
   /\ vars w2 = ServerTs.mkVars (Some stream)
   /\ streams w2
      = streams ws ++ [{| request := ServerTs.request; writes := payloads evs;
                          end_calls := 0; closed := false; finished := false |}]).
Proof.
  intros Hcred Hclient Hq. split.
  - assert (Hv : vars (stepB w (StartStream None))
                 = Part000b.mkVars (Some (length (streams w))) false).
    { rewrite Hcred, Hclient. destruct w as [[rs ended] strs rc em co]. reflexivity. }
    assert (Hs : streams (stepB w (StartStream None))
                 = streams w ++ [new_stream Part000b.request]).
    { rewrite Hcred, Hclient. destruct w as [[rs ended] strs rc em co]. reflexivity. }
    destruct (quiet_events_forward_b evs _ _ _ Hq Hv Hs) as [Hv2 Hs2].
    cbn zeta. repeat split; assumption.
  - assert (Hv : vars (ServerTs.step ws (StartStream None))
                 = ServerTs.mkVars (Some (length (streams ws)))).
    { destruct ws as [[rs] strs rc em co]. reflexivity. }
    assert (Hs : streams (ServerTs.step ws (StartStream None))
                 = streams ws ++ [new_stream ServerTs.request]).
    { destruct ws as [[rs] strs rc em co]. reflexivity. }
    destruct (quiet_events_forward_s evs _ _ _ Hq Hv Hs) as [Hv2 Hs2].
    cbn zeta. repeat split; assumption.
Qed.

(** ** What one event does to the stream objects *)

(** Every step either leaves the stream objects alone, appends a fresh one
    (a successful start), records a [write] or an [end()] on the referenced,
    not yet ended stream, or marks a stream as finished. *)
Lemma step_streams_cases (w : World Part000b.Vars) ev :
  streams (stepB w ev) = streams w
  \/ (ev = StartStream None
      /\ streams (stepB w ev) = streams w ++ [new_stream Part000b.request]
      /\ vars (stepB w ev) = Part000b.mkVars (Some (length (streams w))) false)
  \/ (exists stream data fault,
        ev = BinaryData data fault
        /\ Part000b.recognizeStream (vars w) = Some stream
        /\ Part000b.isStreamEnded (vars w) = false
        /\ streams (stepB w ev) = alter (record_write data) stream (streams w))
  \/ (exists stream ok,
        stop_or_disconnect ev = true
        /\ Part000b.recognizeStream (vars w) = Some stream
        /\ Part000b.isStreamEnded (vars w) = false
        /\ streams (stepB w ev) = alter (record_end ok) stream (streams w)
        /\ (ok = true -> Part000b.recognizeStream (vars (stepB w ev)) = None))
  \/ (exists sid,
        ev = StreamEnd sid
        /\ streams (stepB w ev) = alter record_finished sid (streams w)
        /\ Part000b.recognizeStream (vars (stepB w ev)) = None).
Proof.
  destruct w as [[rs ended] strs rc em co].
  destruct ev as [fault | data fault | fault | fault | sid error | sid data | sid].
  - destruct hasValidCredentials, speechClient as [c|], fault as [e|];
      try (left; reflexivity).
    right; left. repeat split; reflexivity.
  - destruct rs as [s|], ended; try (left; reflexivity).
    right; right; left. exists s, data, fault.
    destruct fault; repeat split; reflexivity.
  - destruct rs as [s|], ended; try (left; reflexivity).
    right; right; right; left. destruct fault as [e|].
    + exists s, false. repeat split; try reflexivity. discriminate.
    + exists s, true. repeat split; reflexivity.
  - destruct rs as [s|], ended; try (left; reflexivity).
    right; right; right; left. destruct fault as [e|].
    + exists s, false. repeat split; try reflexivity. discriminate.
    + exists s, true. repeat split; reflexivity.
  - left. b_unfold. destruct (strs !! sid); [|reflexivity].
    destruct (negb _); reflexivity.
  - left. b_unfold. destruct (strs !! sid); [|reflexivity].
    destruct (head (results data)) as [res|]; [|reflexivity].
    destruct (head (alternatives res)); reflexivity.
  - b_unfold. destruct (strs !! sid) eqn:Hsid; [|left; reflexivity].
    right; right; right; right. exists sid. repeat split; reflexivity.
Qed.

(** The closure variables change only as the handlers say. *)
Lemma step_reference_cases (w : World Part000b.Vars) ev :
  Part000b.recognizeStream (vars (stepB w ev)) = None
  \/ (Part000b.recognizeStream (vars (stepB w ev)) = Part000b.recognizeStream (vars w)
      /\ length (streams (stepB w ev)) = length (streams w))
  \/ (ev = StartStream None
      /\ hasValidCredentials = true /\ is_Some speechClient
      /\ vars (stepB w ev) = Part000b.mkVars (Some (length (streams w))) false
      /\ streams (stepB w ev) = streams w ++ [new_stream Part000b.request]).
Proof.
  destruct w as [[rs ended] strs rc em co].
  destruct ev as [fault | data fault | fault | fault | sid error | sid data | sid].
  - destruct hasValidCredentials, speechClient as [c|], fault as [e|];
      try (right; left; repeat split; reflexivity).
    right; right. repeat split; try reflexivity. eexists; reflexivity.
  - right; left. destruct rs as [s|], ended, fault as [e|]; cbn;
      rewrite ?length_alter; repeat split; reflexivity.
  - destruct rs as [s|], ended, fault as [e|]; cbn;
      try (left; reflexivity);
      right; left; rewrite ?length_alter; repeat split; reflexivity.
  - destruct rs as [s|], ended, fault as [e|]; cbn;
      try (left; reflexivity);
      right; left; rewrite ?length_alter; repeat split; reflexivity.
  - right; left. b_unfold. destruct (strs !! sid); [|repeat split; auto].
    destruct (negb _); repeat split; auto.
  - right; left. b_unfold. destruct (strs !! sid); [|repeat split; auto].
    destruct (head (results data)) as [res|]; [|repeat split; auto].
    destruct (head (alternatives res)); repeat split; auto.
  - b_unfold. destruct (strs !! sid) eqn:Hsid; [left; reflexivity|].
    right; left. repeat split; auto.
Qed.

(** ** The session invariant *)

Lemma live_record_write data s : live (record_write data s) = live s.
Proof. reflexivity. Qed.

Lemma live_record_end_failed s : live (record_end false s) = live s.
Proof. unfold live. cbn. rewrite orb_false_r. reflexivity. Qed.

Lemma step_preserves_inv (w : World Part000b.Vars) ev :
  session_inv w -> session_inv (stepB w ev).
Proof.
  intros Hinv stream Href.
  destruct (step_reference_cases w ev) as [Hn | [[Hsame Hlen] | (Hev & _ & _ & Hv & Hs)]].
  - congruence.
  - rewrite Hsame in Href.
    destruct (Hinv _ Href) as (Hl & s & Hlook & Hlive).
    rewrite Hlen. split; [exact Hl|].
    destruct (step_streams_cases w ev) as [H | [H | [H | [H | H]]]].
    + rewrite H. eauto.
    + destruct H as (_ & Hs & _). rewrite Hs, length_app in Hlen. cbn in Hlen. lia.
    + destruct H as (st & data & fault & _ & Hr & _ & Hs).
      assert (st = stream) by congruence. subst st.
      rewrite Hs, list_lookup_alter_eq, Hlook. cbn.
      eexists. split; [reflexivity|]. rewrite live_record_write. exact Hlive.
    + destruct H as (st & ok & _ & Hr & _ & Hs & Hok).
      assert (st = stream) by congruence. subst st.
      destruct ok; [specialize (Hok eq_refl); congruence|].
      rewrite Hs, list_lookup_alter_eq, Hlook. cbn.
      eexists. split; [reflexivity|]. rewrite live_record_end_failed. exact Hlive.
    + destruct H as (sid & _ & _ & Hnone). congruence.
  - rewrite Hv in Href. cbn in Href. injection Href as <-.
    rewrite Hs, length_app. cbn. split; [lia|].
    exists (new_stream Part000b.request). split; [|reflexivity].
    apply list_lookup_middle. reflexivity.
Qed.

Lemma reachable_inv evs : session_inv (runB Part000b.connected evs).
Proof.
  induction evs as [|ev evs IH] using rev_ind.
  - intros stream Href. discriminate Href.
  - rewrite run_snoc_b. apply step_preserves_inv. exact IH.
Qed.

Lemma backend_cases :
  (hasValidCredentials = false \/ speechClient = None)
  \/ (hasValidCredentials = true /\ exists client, speechClient = Some client).
Proof. destruct hasValidCredentials, speechClient; eauto. Qed.

(** With the backend unavailable no stream is ever referenced. *)
Lemma unavailable_no_stream evs :
  hasValidCredentials = false \/ speechClient = None ->
  Part000b.recognizeStream (vars (runB Part000b.connected evs)) = None.
Proof.
  intros Hun. induction evs as [|ev evs IH] using rev_ind; [reflexivity|].
  rewrite run_snoc_b.
  destruct (step_reference_cases (runB Part000b.connected evs) ev)
    as [Hn | [[Hsame _] | (_ & Hcred & [c Hc] & _)]].
  - exact Hn.
  - rewrite Hsame. exact IH.
  - destruct Hun; congruence.
Qed.

(** ** The start signal *)

(** C2: take any state a connection can reach and any outcome of
    [streamingRecognize].  If the backend is unavailable (credentials invalid
    or no client), the start handler emits the "not configured" error and
    does nothing else.  In every case the handler returns normally, and
    afterwards either no stream is referenced, or the referenced stream is
    live and [isStreamEnded] is false. *)
Theorem start_guarantee evs fault :
  let w := runB Part000b.connected evs in
  let w1 := stepB w (StartStream fault) in
  (hasValidCredentials = false \/ speechClient = None ->
   dispatchB (StartStream fault) w
   = (Normal tt,
      mkWorld (vars w) (streams w) (recognize_calls w)
        (emitted w ++ [("error", "Speech-to-Text service is not configured")])
        (console w))
   /\ Part000b.recognizeStream (vars w1) = None)
  /\ fst (dispatchB (StartStream fault) w) = Normal tt
  /\ (Part000b.recognizeStream (vars w1) = None
      \/ exists stream s,
          Part000b.recognizeStream (vars w1) = Some stream
          /\ Part000b.isStreamEnded (vars w1) = false
          /\ streams w1 !! stream = Some s
          /\ live s = true).
Proof.
  intros w w1.
  pose proof (reachable_inv (evs ++ [StartStream fault])) as Hinv.
  rewrite run_snoc_b in Hinv. fold w in Hinv. fold w1 in Hinv.
  assert (Hnone : hasValidCredentials = false \/ speechClient = None ->
                  Part000b.recognizeStream (vars w1) = None).
  { intros Hun.
    pose proof (unavailable_no_stream (evs ++ [StartStream fault]) Hun) as Hnone.
    rewrite run_snoc_b in Hnone. exact Hnone. }
  clearbody w.
  split; [|split].
  - intros Hun. split; [|exact (Hnone Hun)].
    unfold Part000b.dispatch, Part000b.on_startStream.
    destruct Hun as [-> | ->]; [reflexivity|].
    rewrite orb_true_r. reflexivity.
  - destruct w as [[rs ended] strs rc em co].
    unfold Part000b.dispatch, Part000b.on_startStream.
    destruct (negb hasValidCredentials || js_not speechClient); [reflexivity|].
    destruct fault; reflexivity.
  - destruct (Part000b.recognizeStream (vars w1)) as [stream|] eqn:Href; [|left; reflexivity].
    right. destruct (Hinv _ Href) as (_ & s & Hlook & Hlive).
    exists stream, s. repeat split; try assumption.
    destruct backend_cases as [Hun | [Hcred [c Hclient]]].
    + specialize (Hnone Hun). congruence.
    + subst w1. unfold Part000b.step, Part000b.dispatch, Part000b.on_startStream.
      rewrite Hcred, Hclient. destruct w as [[rs ended] strs rc em co].
      destruct fault; reflexivity.
Qed.

(** ** Where writes go *)

(** What one step does to a given stream object: it stays in place, it does
    not come back to life, and its write log grows only by the payload of an
    audio chunk that arrives while the session refers to it with the flag
    clear. *)
Lemma step_stream_lookup (w : World Part000b.Vars) ev sid s :
  streams w !! sid = Some s ->
  length (streams w) <= length (streams (stepB w ev))
  /\ exists s',
      streams (stepB w ev) !! sid = Some s'
      /\ (live s' = true -> live s = true)
      /\ (writes s' = writes s
          \/ (Part000b.recognizeStream (vars w) = Some sid
              /\ Part000b.isStreamEnded (vars w) = false
              /\ exists data fault,
                  ev = BinaryData data fault /\ writes s' = writes s ++ [data])).
Proof.
  intros Hlook.
  destruct (step_streams_cases w ev) as [H | [H | [H | [H | H]]]].
  - rewrite H. split; [lia|]. exists s. auto.
  - destruct H as (_ & Hs & _). rewrite Hs, length_app. split; [lia|].
    exists s. split; [apply lookup_app_l_Some; exact Hlook | auto].
  - destruct H as (st & data & fault & Hev & Hr & He & Hs).
    rewrite Hs, length_alter. split; [lia|].
    destruct (decide (st = sid)) as [->|Hne].
    + exists (record_write data s). rewrite list_lookup_alter_eq, Hlook.
      split; [reflexivity|]. split; [auto|]. right. eauto 10.
    + exists s. rewrite list_lookup_alter_ne by exact Hne. auto.
  - destruct H as (st & ok & _ & _ & _ & Hs & _).
    rewrite Hs, length_alter. split; [lia|].
    destruct (decide (st = sid)) as [->|Hne].
    + exists (record_end ok s). rewrite list_lookup_alter_eq, Hlook.
      split; [reflexivity|]. split; [|left; reflexivity].
      unfold live. cbn. destruct (closed s), ok, (finished s); auto.
    + exists s. rewrite list_lookup_alter_ne by exact Hne. auto.
  - destruct H as (st & _ & Hs & _).
    rewrite Hs, length_alter. split; [lia|].
    destruct (decide (st = sid)) as [->|Hne].
    + exists (record_finished s). rewrite list_lookup_alter_eq, Hlook.
      split; [reflexivity|]. split; [|left; reflexivity].
      unfold live. cbn. rewrite andb_false_r. discriminate.
    + exists s. rewrite list_lookup_alter_ne by exact Hne. auto.
Qed.

(** A stream that is no longer live, or that is no longer the newest one,
    keeps its write log for good. *)
Lemma retired_stream_keeps_writes evs later sid s :
  streams (runB Part000b.connected evs) !! sid = Some s ->
  live s = false \/ S sid < length (streams (runB Part000b.connected evs)) ->
  exists s',
    streams (runB Part000b.connected (evs ++ later)) !! sid = Some s'
    /\ writes s' = writes s
    /\ (live s' = false
        \/ S sid < length (streams (runB Part000b.connected (evs ++ later)))).
Proof.
  intros Hlook Hret. induction later as [|ev later IH] using rev_ind.
  - rewrite app_nil_r. exists s. auto.
  - destruct IH as (s2 & Hlook2 & Hw2 & Hret2).
    rewrite app_assoc, run_snoc_b.
    pose proof (reachable_inv (evs ++ later)) as Hinv.
    destruct (step_stream_lookup _ ev sid s2 Hlook2) as (Hlen & s3 & Hlook3 & Hlive3 & Hw3).
    exists s3. split; [exact Hlook3|]. split.
    + destruct Hw3 as [Hw3 | (Href & _ & _)]; [congruence|].
      destruct (Hinv _ Href) as (Hnewest & s0 & Hlook0 & Hlive0).
      rewrite Hlook2 in Hlook0. injection Hlook0 as <-.
      destruct Hret2; [congruence | lia].
    + destruct Hret2 as [Hdead | Hold]; [left | right; lia].
      destruct (live s3); [specialize (Hlive3 eq_refl); congruence | reflexivity].
Qed.

(** Second document of part_000: in every state a connection can reach, the
    session refers to at most one stream, namely the one handed out last,
    and that stream is live; a step extends the write log of a stream only
    when it is an audio chunk, the session refers to that stream and
    [isStreamEnded] is false, and then by exactly the chunk's payload; and a
    stream that accepted a close request, finished by itself or was replaced
    by a newer stream never receives another write. *)
Theorem writes_reach_only_the_current_stream evs :
  let w := runB Part000b.connected evs in
  session_inv w
  /\ (forall ev sid s s',
        streams w !! sid = Some s ->
        streams (stepB w ev) !! sid = Some s' ->
        writes s' <> writes s ->
        Part000b.recognizeStream (vars w) = Some sid
        /\ Part000b.isStreamEnded (vars w) = false
        /\ live s = true
        /\ S sid = length (streams w)
        /\ exists data fault, ev = BinaryData data fault /\ writes s' = writes s ++ [data])
  /\ (forall later sid s s',
        streams w !! sid = Some s ->
        live s = false \/ S sid < length (streams w) ->
        streams (runB w later) !! sid = Some s' ->
        writes s' = writes s).
Proof.
  intros w. pose proof (reachable_inv evs) as Hinv. fold w in Hinv.
  split; [exact Hinv|]. split.
  - intros ev sid s s' Hlook Hlook' Hneq.
    destruct (step_stream_lookup w ev sid s Hlook) as (_ & s0 & Hlook0 & _ & Hw).
    rewrite Hlook' in Hlook0. injection Hlook0 as <-.
    destruct Hw as [Hw | (Href & Hend & data & fault & Hev & Hw)]; [contradiction|].
    destruct (Hinv _ Href) as (Hnewest & s1 & Hlook1 & Hlive1).
    rewrite Hlook in Hlook1. injection Hlook1 as <-.
    repeat split; try assumption. eauto.
  - intros later sid s s' Hlook Hret Hlook'.
    destruct (retired_stream_keeps_writes evs later sid s Hlook Hret)
      as (s2 & Hlook2 & Hw2 & _).
    rewrite run_app_b in Hlook2. fold w in Hlook2. congruence.
Qed.

End Session.

(** ** Two starts in a row *)

(** C1 as stated fails: two start signals in a row, both successful, leave
    two live streams, in the guarded revision and in src/server.ts alike.
    The first stream is neither closed nor referenced any more. *)
Lemma double_start_leaves_two_open_streams :
  let w := Part000b.run true (Some sample_client) Part000b.connected
             [StartStream None; StartStream None] in
  let ws := ServerTs.run ServerTs.connected [StartStream None; StartStream None] in
  (open_streams w = [0; 1] /\ ~ length (open_streams w) <= 1
   /\ Part000b.recognizeStream (vars w) = Some 1)
  /\ (open_streams ws = [0; 1] /\ ~ length (open_streams ws) <= 1).
Proof.
  cbv zeta. repeat split; try reflexivity; vm_compute; lia.
Qed.

(** ** Exceptions that leave a handler *)

(** No handler of the guarded revision ever lets an exception out. *)
Lemma guarded_handlers_never_throw hv client (w : World Part000b.Vars) ev :
  fst (Part000b.dispatch hv client ev w) = Normal tt.
Proof.
  destruct w as [[rs ended] strs rc em co].
  destruct ev as [fault | data fault | fault | fault | sid error | sid data | sid].
  - unfold Part000b.dispatch, Part000b.on_startStream.
    destruct (negb hv || js_not client); [reflexivity|].
    destruct fault; reflexivity.
  - destruct rs, ended, fault; reflexivity.
  - destruct rs, ended, fault; reflexivity.
  - destruct rs, ended, fault; reflexivity.
  - b_unfold. destruct (strs !! sid); [|reflexivity].
    destruct (negb _); reflexivity.
  - b_unfold. destruct (strs !! sid); [|reflexivity].
    destruct (head (results data)) as [res|]; [|reflexivity].
    destruct (head (alternatives res)); reflexivity.
  - b_unfold. destruct (strs !! sid); reflexivity.
Qed.

(** C9 fails in src/server.ts and in the first document of part_000: after a
    start, a 'data' event whose first result has no alternative makes the
    listener throw a TypeError, which leaves the listener uncaught.  In
    src/server.ts a failing [streamingRecognize], [write] or [end()] leaves
    its handler the same way. *)
Theorem data_listener_throws_on_empty_alternatives :
  fst (ServerTs.dispatch (StreamData 0 empty_alternatives)
         (ServerTs.run ServerTs.connected [StartStream None]))
  = Throw TypeError_transcript
  /\ fst (Part000a.dispatch (StreamData 0 empty_alternatives)
            (Part000a.run Part000a.connected [StartStream None]))
     = Throw TypeError_transcript
  /\ fst (ServerTs.dispatch (StartStream (Some sample_error)) ServerTs.connected)
     = Throw sample_error
  /\ fst (ServerTs.dispatch (BinaryData chunk1 (Some sample_error))
            (ServerTs.run ServerTs.connected [StartStream None]))
     = Throw sample_error
  /\ fst (ServerTs.dispatch (EndStream (Some sample_error))
            (ServerTs.run ServerTs.connected [StartStream None]))
     = Throw sample_error.
Proof. repeat split. Qed.

(** ** The theorems at concrete inputs *)

Lemma audio_before_start_is_dropped_witness :
  Forall (fun ev => is_start ev = false) [EndStream None; Disconnect None]
  /\ Part000b.run true (Some sample_client) Part000b.connected
       ([EndStream None; Disconnect None]
        ++ chunk_events [(chunk1, None); (chunk2, Some sample_error)]
        ++ [StartStream None])
     = Part000b.run true (Some sample_client) Part000b.connected
         ([EndStream None; Disconnect None] ++ [StartStream None]).
Proof.
  assert (H : Forall (fun ev => is_start ev = false) [EndStream None; Disconnect None]).
  { repeat constructor. }
  split; [exact H|].
  exact (proj2 (proj2 (proj1
           (audio_before_start_is_dropped true (Some sample_client)
              [EndStream None; Disconnect None]
              [(chunk1, None); (chunk2, Some sample_error)]
              [StartStream None] H)))).
Defined.

Lemma upstream_error_filter_witness :
  let w := Part000b.run true (Some sample_client) Part000b.connected [StartStream None] in
  is_Some (streams w !! 0)
  /\ Part000b.dispatch true (Some sample_client) (StreamError 0 write_after_end) w
     = (Normal tt, w)
  /\ emitted (Part000b.step true (Some sample_client) w (StreamError 0 sample_error))
     = [("error", "Speech recognition error: stream destroyed")].
Proof.
  cbv zeta.
  assert (H : is_Some (streams (Part000b.run true (Some sample_client)
                                  Part000b.connected [StartStream None]) !! 0)).
  { eexists. reflexivity. }
  split; [exact H|]. split.
  - apply (proj1 (upstream_error_filter true (Some sample_client) _ 0 write_after_end H)).
    reflexivity.
  - apply (proj2 (upstream_error_filter true (Some sample_client) _ 0 sample_error H)).
    discriminate.
Defined.

Lemma start_without_credentials_witness :
  Part000b.hasValidCredentials_of rejecting_parser (Some "not json") = false
  /\ emitted (Part000b.step
                (Part000b.hasValidCredentials_of rejecting_parser (Some "not json"))
                None Part000b.connected (StartStream None))
     = [("error", "Speech-to-Text service is not configured")].
Proof.
  assert (H : Part000b.hasValidCredentials_of rejecting_parser (Some "not json") = false).
  { reflexivity. }
  split; [exact H|].
  unfold Part000b.step.
  rewrite (proj2 (start_without_credentials rejecting_parser building_constructor
                    (Some "not json")
                    Part000b.connected None H) None).
  reflexivity.
Defined.

Lemma stop_and_disconnect_are_silent_witness :
  let w := Part000b.run true (Some sample_client) Part000b.connected [StartStream None] in
  Part000b.recognizeStream (vars w) = Some 0
  /\ Part000b.isStreamEnded (vars w) = false
  /\ emitted (Part000b.step true (Some sample_client) w (EndStream (Some sample_error))) = []
  /\ console (Part000b.step true (Some sample_client) w (EndStream (Some sample_error)))
     = console w ++ [ConsoleError [Text "Error ending stream:"; Obj sample_error]].
Proof.
  cbv zeta.
  destruct (stop_and_disconnect_are_silent true (Some sample_client)
              (Part000b.run true (Some sample_client) Part000b.connected [StartStream None])
              (Some sample_error)) as ((_ & Hemit) & _ & Hlog).
  split; [reflexivity|]. split; [reflexivity|]. split.
  - rewrite Hemit. reflexivity.
  - apply (Hlog 0 sample_error); reflexivity.
Defined.

Lemma stop_is_idempotent_witness :
  let w1 := Part000b.step true (Some sample_client) Part000b.connected (EndStream None) in
  Part000b.recognizeStream (vars Part000b.connected) = None
  /\ Part000b.dispatch true (Some sample_client) (EndStream None) Part000b.connected
     = (Normal tt, Part000b.connected)
  /\ Part000b.dispatch true (Some sample_client) (EndStream (Some sample_error)) w1
     = (Normal tt, w1).
Proof.
  cbv zeta.
  destruct (stop_is_idempotent true (Some sample_client) Part000b.connected
              None (Some sample_error)) as (_ & _ & _ & _ & Htwice & Hnoop & _).
  split; [reflexivity|]. split.
  - apply Hnoop. left. reflexivity.
  - exact Htwice.
Defined.

Lemma upstream_end_drops_later_chunks_witness :
  let w := Part000b.run true (Some sample_client) Part000b.connected [StartStream None] in
  let w1 := Part000b.step true (Some sample_client) w (StreamEnd 0) in
  is_Some (streams w !! 0)
  /\ vars w1 = Part000b.mkVars None true
  /\ Part000b.run true (Some sample_client) w1
       (chunk_events [(chunk1, None); (chunk2, Some sample_error)]) = w1.
Proof.
  cbv zeta.
  assert (H : is_Some (streams (Part000b.run true (Some sample_client)
                                  Part000b.connected [StartStream None]) !! 0)).
  { eexists. reflexivity. }
  destruct (upstream_end_drops_later_chunks true (Some sample_client) _ 0
              [(chunk1, None); (chunk2, Some sample_error)] H)
    as (_ & Hvars & _ & _ & Hdrop).
  split; [exact H|]. split; [exact Hvars | exact Hdrop].
Defined.

Lemma audio_is_forwarded_in_order_witness :
  let evs := chunk_events [(chunk1, None); (chunk2, Some sample_error); (chunk1, None)] in
  Forall (fun ev => is_quiet ev = true) evs
  /\ streams (Part000b.run true (Some sample_client)
                (Part000b.step true (Some sample_client) Part000b.connected (StartStream None))
                evs)
     = [{| request := Part000b.request; writes := [chunk1; chunk2; chunk1];
           end_calls := 0; closed := false; finished := false |}].
Proof.
  cbv zeta.
  assert (H : Forall (fun ev => is_quiet ev = true)
                (chunk_events [(chunk1, None); (chunk2, Some sample_error); (chunk1, None)])).
  { repeat constructor. }
  split; [exact H|].
  destruct (audio_is_forwarded_in_order true (Some sample_client) sample_client
              Part000b.connected ServerTs.connected _ eq_refl eq_refl H)
    as ((_ & _ & _ & Hstreams) & _).
  exact Hstreams.
Defined.

Lemma start_guarantee_witness :
  (false = false \/ @None SpeechClient = None)
  /\ emitted (Part000b.step false None
                (Part000b.run false None Part000b.connected [BinaryData chunk1 None])
                (StartStream None))
     = [("error", "Speech-to-Text service is not configured")].
Proof.
  assert (H : false = false \/ @None SpeechClient = None) by (left; reflexivity).
  split; [exact H|].
  destruct (start_guarantee false None [BinaryData chunk1 None] None) as (Hun & _ & _).
  destruct (Hun H) as (Hdispatch & _).
  unfold Part000b.step. rewrite Hdispatch. reflexivity.
Defined.

Lemma writes_reach_only_the_current_stream_witness :
  let w := Part000b.run true (Some sample_client) Part000b.connected [StartStream None] in
  let w' := Part000b.step true (Some sample_client) w (BinaryData chunk1 None) in
  streams w !! 0 = Some (new_stream Part000b.request)
  /\ streams w' !! 0 = Some (record_write chunk1 (new_stream Part000b.request))
  /\ writes (record_write chunk1 (new_stream Part000b.request))
     <> writes (new_stream Part000b.request)
  /\ Part000b.recognizeStream (vars w) = Some 0
  /\ Part000b.isStreamEnded (vars w) = false.
Proof.
  cbv zeta.
  assert (H1 : streams (Part000b.run true (Some sample_client) Part000b.connected
                          [StartStream None]) !! 0
               = Some (new_stream Part000b.request)) by reflexivity.
  assert (H2 : streams (Part000b.step true (Some sample_client)
                          (Part000b.run true (Some sample_client) Part000b.connected
                             [StartStream None])
                          (BinaryData chunk1 None)) !! 0
               = Some (record_write chunk1 (new_stream Part000b.request))) by reflexivity.
  assert (H3 : writes (record_write chunk1 (new_stream Part000b.request))
               <> writes (new_stream Part000b.request)) by discriminate.
  destruct (writes_reach_only_the_current_stream true (Some sample_client)
              [StartStream None]) as (_ & Hstep & _).
  destruct (Hstep (BinaryData chunk1 None) 0 _ _ H1 H2 H3) as (Href & Hend & _).
  repeat split; assumption.
Defined.

(** * Further properties of the code *)

(** ** Start-up *)

(** The client is absent exactly when the credentials were rejected. *)
Lemma client_absent_iff_invalid JSON_parse new_client env client :
  fst (Part000b.speechClient_of JSON_parse new_client env) = Normal client ->
  js_not client = negb (Part000b.hasValidCredentials_of JSON_parse env).
Proof.
  unfold Part000b.speechClient_of.
  destruct (Part000b.hasValidCredentials_of JSON_parse env); cbn.
  - destruct (JSON_parse (credentials_or_default env)) as [json|e]; cbn; [|discriminate].
    destruct (new_client json); cbn; [|discriminate].
    intros H. injection H as <-. reflexivity.
  - intros H. injection H as <-. reflexivity.
Qed.



Lemma app_singleton_neq {A} (l : list A) (x : A) : l <> l ++ [x].
Proof.
  intros H. apply (f_equal length) in H. rewrite length_app in H. cbn in H. lia.
Qed.

(** X2: the liveness endpoint tells the truth about the start handler.  It
    reports "configured" exactly when a start signal calls
    [streamingRecognize], and "missing or invalid" exactly when a start
    signal is answered with the "not configured" error. *)
Theorem health_reports_what_start_does JSON_parse new_client env now client
    (w : World Part000b.Vars) fault :
  fst (Part000b.speechClient_of JSON_parse new_client env) = Normal client ->
  let hv := Part000b.hasValidCredentials_of JSON_parse env in
  (json_field "googleCredentials" (Http.root hv now) = Some (JString "configured")
   <-> recognize_calls (Part000b.step hv client w (StartStream fault))
       = S (recognize_calls w))
  /\ (json_field "googleCredentials" (Http.root hv now)
      = Some (JString "missing or invalid")
      <-> emitted (Part000b.step hv client w (StartStream fault))
          = emitted w ++ [("error", "Speech-to-Text service is not configured")]).
Proof.
  intros Hclient hv.
  pose proof (client_absent_iff_invalid JSON_parse new_client env client Hclient) as Hguard.
  fold hv in Hguard.
  destruct w as [vs strs rc em co].
  destruct hv, client as [c|]; try discriminate Hguard.
  - destruct fault as [e|]; cbn; (split; split; intros H; try reflexivity; try discriminate H).
    + apply app_inv_head in H. discriminate H.
    + apply app_singleton_neq in H. contradiction.
  - cbn. split; split; intros H; try reflexivity; try discriminate H. lia.
Qed.

Lemma health_reports_what_start_does_witness :
  fst (Part000b.speechClient_of rejecting_parser building_constructor (Some "{")) = Normal None
  /\ emitted (Part000b.step (Part000b.hasValidCredentials_of rejecting_parser (Some "{"))
                None Part000b.connected (StartStream None))
     = [("error", "Speech-to-Text service is not configured")].
Proof.
  assert (H : fst (Part000b.speechClient_of rejecting_parser building_constructor
                     (Some "{")) = Normal None)
    by reflexivity.
  split; [exact H|].
  apply (proj2 (health_reports_what_start_does rejecting_parser building_constructor
                  (Some "{") "2024-01-01T00:00:00.000Z" None Part000b.connected None H)).
  reflexivity.
Defined.

(** ** Whole runs *)

Section Runs.
Variable hasValidCredentials : bool.
Variable speechClient : option SpeechClient.

Local Abbreviation stepB := (Part000b.step hasValidCredentials speechClient).
Local Abbreviation runB := (Part000b.run hasValidCredentials speechClient).
Local Abbreviation dispatchB := (Part000b.dispatch hasValidCredentials speechClient).

Lemma count_starts_snoc evs ev :
  count_starts (evs ++ [ev]) = count_starts evs + (if is_start ev then 1 else 0).
Proof.
  unfold count_starts. rewrite List.filter_app, length_app. cbn.
  destruct (is_start ev); reflexivity.
Qed.

Lemma count_successful_starts_snoc evs ev :
  count_successful_starts (evs ++ [ev])
  = count_successful_starts evs + (if is_successful_start ev then 1 else 0).
Proof.
  unfold count_successful_starts. rewrite List.filter_app, length_app. cbn.
  destruct (is_successful_start ev); reflexivity.
Qed.

(** X3: with the backend unavailable a connection never gets anywhere: after
    any sequence of events the closure variables are as at connection time,
    no stream object exists, [streamingRecognize] was never called, and the
    client has received one "not configured" error per start signal and
    nothing else. *)
Theorem unavailable_backend_run evs :
  hasValidCredentials = false \/ speechClient = None ->
  let w := runB Part000b.connected evs in
  vars w = Part000b.mkVars None false
  /\ streams w = []
  /\ recognize_calls w = 0
  /\ emitted w
     = repeat ("error", "Speech-to-Text service is not configured") (count_starts evs).
Proof.
  intros Hun. induction evs as [|ev evs IH] using rev_ind.
  - repeat split.
  - cbv zeta in *. rewrite run_snoc_b, count_starts_snoc.
    destruct (runB Part000b.connected evs) as [vs strs rc em co].
    cbn in IH. destruct IH as (-> & -> & -> & ->).
    assert (Hguard : negb hasValidCredentials || js_not speechClient = true).
    { destruct Hun as [-> | ->]; [reflexivity | apply orb_true_r]. }
    destruct ev as [fault | data fault | fault | fault | sid error | sid data | sid];
      cbn [is_start]; rewrite ?Nat.add_0_r; try (repeat split; reflexivity).
    unfold Part000b.step, Part000b.dispatch, Part000b.on_startStream.
    rewrite Hguard. cbn. repeat split.
    rewrite Nat.add_1_r. cbn. rewrite repeat_cons. reflexivity.
Qed.

(** With the backend available, a start signal is one call of
    [streamingRecognize], and a successful one is one more stream. *)
Lemma step_counters client (w : World Part000b.Vars) ev :
  hasValidCredentials = true ->
  speechClient = Some client ->
  recognize_calls (stepB w ev)
  = recognize_calls w + (if is_start ev then 1 else 0)
  /\ length (streams (stepB w ev))
     = length (streams w) + (if is_successful_start ev then 1 else 0).
Proof.
  intros Hcred Hclient. destruct w as [[rs ended] strs rc em co].
  destruct ev as [fault | data fault | fault | fault | sid error | sid data | sid];
    cbn [is_start is_successful_start].
  - unfold Part000b.step, Part000b.dispatch, Part000b.on_startStream.
    rewrite Hcred, Hclient. destruct fault; cbn; rewrite ?length_app; cbn; split; lia.
  - destruct rs, ended, fault; cbn; rewrite ?length_alter; split; lia.
  - destruct rs, ended, fault; cbn; rewrite ?length_alter; split; lia.
  - destruct rs, ended, fault; cbn; rewrite ?length_alter; split; lia.
  - b_unfold. destruct (strs !! sid); [|cbn; split; lia].
    destruct (negb _); cbn; split; lia.
  - b_unfold. destruct (strs !! sid); [|cbn; split; lia].
    destruct (head (results data)) as [res|]; [|cbn; split; lia].
    destruct (head (alternatives res)); cbn; split; lia.
  - b_unfold. destruct (strs !! sid); cbn; rewrite ?length_alter; split; lia.
Qed.

(** X4: with the backend available, after any sequence of events the number
    of [streamingRecognize] calls is the number of start signals, and the
    number of stream objects is the number of start signals whose call
    returned: a start never reuses a stream and nothing else opens one. *)
Theorem one_stream_per_successful_start client evs :
  hasValidCredentials = true ->
  speechClient = Some client ->
  let w := runB Part000b.connected evs in
  recognize_calls w = count_starts evs
  /\ length (streams w) = count_successful_starts evs.
Proof.
  intros Hcred Hclient. induction evs as [|ev evs IH] using rev_ind.
  - split; reflexivity.
  - cbv zeta in *. rewrite run_snoc_b, count_starts_snoc, count_successful_starts_snoc.
    destruct (step_counters client (runB Part000b.connected evs) ev Hcred Hclient)
      as [Hcalls Hlen].
    destruct IH as [IHcalls IHlen]. rewrite Hcalls, Hlen, IHcalls, IHlen. split; reflexivity.
Qed.

(** X5: every stream a connection ever opens is opened with the one fixed
    request (WEBM_OPUS, 48000 Hz, en-US, punctuation, latest_short, final
    results only), and nothing that happens later changes it. *)
Theorem every_stream_has_the_fixed_request evs :
  Forall (fun s => request s = Part000b.request) (streams (runB Part000b.connected evs)).
Proof.
  induction evs as [|ev evs IH] using rev_ind; [constructor|].
  rewrite run_snoc_b.
  destruct (step_streams_cases hasValidCredentials speechClient
              (runB Part000b.connected evs) ev) as [H | [H | [H | [H | H]]]].
  - rewrite H. exact IH.
  - destruct H as (_ & -> & _). apply Forall_app. split; [exact IH|].
    constructor; [reflexivity | constructor].
  - destruct H as (st & data & fault & _ & _ & _ & ->).
    apply Forall_alter; [exact IH | intros x _ Hx; exact Hx].
  - destruct H as (st & ok & _ & _ & _ & -> & _).
    apply Forall_alter; [exact IH | intros x _ Hx; exact Hx].
  - destruct H as (sid & _ & -> & _).
    apply Forall_alter; [exact IH | intros x _ Hx; exact Hx].
Qed.

(** ** Failing gateway calls *)

(** A run of audio chunks on a referenced stream, seen from the socket. *)
Lemma chunk_run_emits chunks : forall (w : World Part000b.Vars) stream,
  Part000b.recognizeStream (vars w) = Some stream ->
  Part000b.isStreamEnded (vars w) = false ->
  vars (runB w (chunk_events chunks)) = vars w
  /\ recognize_calls (runB w (chunk_events chunks)) = recognize_calls w
  /\ emitted (runB w (chunk_events chunks))
     = emitted w ++ repeat ("error", "Failed to process audio data")
                      (count_failed_writes chunks).
Proof.
  induction chunks as [|[data fault] chunks IH]; intros w stream Href Hend.
  - cbn. rewrite app_nil_r. repeat split.
  - change (chunk_events ((data, fault) :: chunks))
      with (BinaryData data fault :: chunk_events chunks).
    rewrite run_cons_b.
    assert (Hstep : vars (stepB w (BinaryData data fault)) = vars w
                    /\ recognize_calls (stepB w (BinaryData data fault)) = recognize_calls w
                    /\ emitted (stepB w (BinaryData data fault))
                       = emitted w ++ (if throws fault
                                       then [("error", "Failed to process audio data")]
                                       else [])).
    { destruct w as [[rs ended] strs rc em co]. cbn in Href, Hend. subst.
      destruct fault; cbn; rewrite ?app_nil_r; repeat split. }
    destruct Hstep as (Hv & Hc & He).
    destruct (IH (stepB w (BinaryData data fault)) stream) as (IHv & IHc & IHe);
      [rewrite Hv; exact Href | rewrite Hv; exact Hend |].
    rewrite IHv, IHc, IHe, Hv, Hc, He. repeat split.
    unfold count_failed_writes. cbn [List.filter snd].
    destruct (throws fault); cbn; rewrite <- app_assoc; reflexivity.
Qed.

(** X7: while the session refers to a stream with the flag clear, a run of
    audio chunks leaves the closure variables alone, whatever the [write]
    calls do, and the client receives exactly one "Failed to process audio
    data" error per [write] that threw: a write failure is reported, it does
    not close or drop the stream. *)
Theorem one_error_per_failed_write chunks (w : World Part000b.Vars) stream :
  Part000b.recognizeStream (vars w) = Some stream ->
  Part000b.isStreamEnded (vars w) = false ->
  vars (runB w (chunk_events chunks)) = vars w
  /\ recognize_calls (runB w (chunk_events chunks)) = recognize_calls w
  /\ emitted (runB w (chunk_events chunks))
     = emitted w ++ repeat ("error", "Failed to process audio data")
                      (count_failed_writes chunks).
Proof. apply chunk_run_emits. Qed.

(** X6: a stop whose [end()] throws leaves the reference in place with the
    flag set, so audio is dropped; if the next start then fails as well, the
    handler has already cleared the flag, and audio is written again to the
    stream that was asked to end. *)
Theorem failed_start_revives_the_stream client (w : World Part000b.Vars)
    stream e1 e2 data fault :
  hasValidCredentials = true ->
  speechClient = Some client ->
  Part000b.recognizeStream (vars w) = Some stream ->
  Part000b.isStreamEnded (vars w) = false ->
  let w1 := stepB w (EndStream (Some e1)) in
  let w2 := stepB w1 (StartStream (Some e2)) in
  vars w1 = Part000b.mkVars (Some stream) true
  /\ stepB w1 (BinaryData data fault) = w1
  /\ vars w2 = Part000b.mkVars (Some stream) false
  /\ streams w2 = alter (record_end false) stream (streams w)
  /\ emitted w2 = emitted w ++ [("error", "Failed to start stream")]
  /\ streams (stepB w2 (BinaryData data fault))
     = alter (record_write data) stream (alter (record_end false) stream (streams w)).
Proof.
  intros Hcred Hclient Href Hend.
  destruct w as [[rs ended] strs rc em co]. cbn in Href, Hend. subst rs ended.
  unfold Part000b.step, Part000b.dispatch, Part000b.on_startStream.
  rewrite Hcred, Hclient. destruct fault; cbn; repeat split.
Qed.

(** ** Results on their way back *)

Lemma data_event_emits (w : World Part000b.Vars) sid data :
  is_Some (streams w !! sid) ->
  stepB w (StreamData sid data)
  = mkWorld (vars w) (streams w) (recognize_calls w)
      (emitted w ++ match first_transcript data with
                    | Some text => [("transcription", text)]
                    | None => []
                    end)
      (console w).
Proof.
  intros [s Hs]. destruct w as [vs strs rc em co]. cbn in Hs.
  unfold first_transcript. b_unfold. rewrite Hs.
  destruct (head (results data)) as [res|]; [|cbn; rewrite app_nil_r; reflexivity].
  destruct (head (alternatives res)); cbn; rewrite ?app_nil_r; reflexivity.
Qed.

(** X8: a run of 'data' events on streams of the connection changes nothing
    but the socket: the client receives one 'transcription' per response
    that has a first alternative in its first result, carrying that text, in
    the order the responses came; responses without one are skipped. *)
Theorem transcriptions_arrive_in_order responses : forall (w : World Part000b.Vars),
  Forall (fun response => is_Some (streams w !! fst response)) responses ->
  runB w (data_events responses)
  = mkWorld (vars w) (streams w) (recognize_calls w)
      (emitted w
       ++ map (fun text => ("transcription", text))
            (omap (fun response => first_transcript (snd response)) responses))
      (console w).
Proof.
  induction responses as [|[sid data] responses IH]; intros w Hreg.
  - cbn. rewrite app_nil_r. destruct w; reflexivity.
  - apply Forall_cons in Hreg as [Hsid Hreg]. cbn [fst] in Hsid.
    change (data_events ((sid, data) :: responses))
      with (StreamData sid data :: data_events responses).
    rewrite run_cons_b, (data_event_emits w sid data Hsid).
    rewrite IH by exact Hreg. cbn [vars streams recognize_calls emitted console omap snd].
    f_equal. rewrite <- app_assoc. f_equal.
    destruct (first_transcript data) eqn:Htext; cbn; rewrite Htext; reflexivity.
Qed.

(** What one step adds to the socket. *)
Lemma step_emits (w : World Part000b.Vars) ev :
  emitted (stepB w ev) = emitted w
  \/ exists sent, emitted (stepB w ev) = emitted w ++ [sent] /\ outbound_vocabulary sent.
Proof.
  destruct w as [[rs ended] strs rc em co].
  destruct ev as [fault | data fault | fault | fault | sid error | sid data | sid].
  - unfold Part000b.step, Part000b.dispatch, Part000b.on_startStream.
    destruct (negb hasValidCredentials || js_not speechClient).
    + right. eexists. split; [reflexivity|]. right. split; [reflexivity|]. auto.
    + destruct fault; [|left; reflexivity].
      right. eexists. split; [reflexivity|]. right. split; [reflexivity|]. auto.
  - destruct rs, ended, fault; try (left; reflexivity).
    right. eexists. split; [reflexivity|]. right. split; [reflexivity|]. auto.
  - left. destruct rs, ended, fault; reflexivity.
  - left. destruct rs, ended, fault; reflexivity.
  - b_unfold. destruct (strs !! sid); [|left; reflexivity].
    destruct (String.eqb (message error) "write after end") eqn:Hmsg; [left; reflexivity|].
    right. eexists. split; [reflexivity|]. right. split; [reflexivity|].
    right; right; right. exists (message error). split; [|reflexivity].
    apply String.eqb_neq. exact Hmsg.
  - b_unfold. destruct (strs !! sid); [|left; reflexivity].
    destruct (head (results data)) as [res|]; [|left; reflexivity].
    destruct (head (alternatives res)); [|left; reflexivity].
    right. eexists. split; [reflexivity|]. left. reflexivity.
  - left. b_unfold. destruct (strs !! sid); reflexivity.
Qed.

(** X9: whatever happens on a connection, the client only ever receives
    'transcription' events and 'error' events, and an 'error' carries one of
    three fixed texts or "Speech recognition error: " followed by a gateway
    message other than "write after end". *)
Theorem client_only_sees_the_vocabulary evs :
  Forall outbound_vocabulary (emitted (runB Part000b.connected evs)).
Proof.
  induction evs as [|ev evs IH] using rev_ind; [constructor|].
  rewrite run_snoc_b.
  destruct (step_emits (runB Part000b.connected evs) ev) as [-> | (sent & -> & Hsent)].
  - exact IH.
  - apply Forall_app. split; [exact IH|]. constructor; [exact Hsent | constructor].
Qed.

(** ** Streams left behind *)

(** X10: a stream that is no longer the newest one of its connection is out
    of the session's reach: whatever follows, its request, its write log,
    the number of [end()] calls it received and whether it was closed stay
    as they are.  In particular a stream replaced while open is never asked
    to close. *)
Theorem replaced_stream_is_never_closed evs later sid s :
  streams (runB Part000b.connected evs) !! sid = Some s ->
  S sid < length (streams (runB Part000b.connected evs)) ->
  exists s',
    streams (runB Part000b.connected (evs ++ later)) !! sid = Some s'
    /\ request s' = request s
    /\ writes s' = writes s
    /\ end_calls s' = end_calls s
    /\ closed s' = closed s.
Proof.
  intros Hlook Hold.
  assert (H : exists s',
             streams (runB Part000b.connected (evs ++ later)) !! sid = Some s'
             /\ request s' = request s /\ writes s' = writes s
             /\ end_calls s' = end_calls s /\ closed s' = closed s
             /\ S sid < length (streams (runB Part000b.connected (evs ++ later)))).
  { induction later as [|ev later IH] using rev_ind.
    - rewrite app_nil_r. exists s. repeat split; assumption.
    - destruct IH as (s2 & Hlook2 & Hreq & Hw & He & Hc & Hold2).
      rewrite app_assoc, run_snoc_b.
      pose proof (reachable_inv hasValidCredentials speechClient (evs ++ later)) as Hinv.
      destruct (step_streams_cases hasValidCredentials speechClient
                  (runB Part000b.connected (evs ++ later)) ev) as [H | [H | [H | [H | H]]]].
      + rewrite H. exists s2. repeat split; assumption.
      + destruct H as (_ & -> & _). exists s2. rewrite length_app. cbn.
        repeat split; try assumption; [|lia].
        apply lookup_app_l_Some. exact Hlook2.
      + destruct H as (st & data & fault & _ & Href & _ & ->).
        destruct (Hinv _ Href) as (Hnewest & _).
        exists s2. rewrite length_alter, list_lookup_alter_ne by lia.
        repeat split; assumption.
      + destruct H as (st & ok & _ & Href & _ & -> & _).
        destruct (Hinv _ Href) as (Hnewest & _).
        exists s2. rewrite length_alter, list_lookup_alter_ne by lia.
        repeat split; assumption.
      + destruct H as (st & _ & -> & _).
        rewrite length_alter. destruct (decide (st = sid)) as [->|Hne].
        * exists (record_finished s2). rewrite list_lookup_alter_eq, Hlook2.
          repeat split; assumption.
        * exists s2. rewrite list_lookup_alter_ne by exact Hne.
          repeat split; assumption. }
  destruct H as (s' & H1 & H2 & H3 & H4 & H5 & _). exists s'. repeat split; assumption.
Qed.

End Runs.

(** ** The earlier revisions *)

Lemma run_cons_a w ev evs :
  Part000a.run w (ev :: evs) = Part000a.run (Part000a.step w ev) evs.
Proof. reflexivity. Qed.

Lemma run_snoc_s w evs ev :
  ServerTs.run w (evs ++ [ev]) = ServerTs.step (ServerTs.run w evs) ev.
Proof. rewrite run_app_s. reflexivity. Qed.

Lemma count_stops_cons ev evs :
  count_stops (ev :: evs) = (if stop_or_disconnect ev then 1 else 0) + count_stops evs.
Proof. unfold count_stops. cbn. destruct (stop_or_disconnect ev); reflexivity. Qed.

(** One event other than a start, in the first document of part_000, seen
    from the referenced stream. *)
Lemma step_a_referenced (w : World Part000a.Vars) ev n s :
  is_start ev = false ->
  vars w = Part000a.mkVars (Some n) ->
  streams w !! n = Some s ->
  vars (Part000a.step w ev) = Part000a.mkVars (Some n)
  /\ exists s',
      streams (Part000a.step w ev) !! n = Some s'
      /\ writes s' = writes s ++ payloads [ev]
      /\ end_calls s' = end_calls s + (if stop_or_disconnect ev then 1 else 0).
Proof.
  intros Hev Hv Hs. destruct w as [[rs] strs rc em co]. cbn in Hv, Hs.
  injection Hv as ->.
  destruct ev as [fault | data fault | fault | fault | sid error | sid data | sid];
    try discriminate Hev; cbn [payloads stop_or_disconnect].
  - split; [destruct fault; reflexivity|].
    exists (record_write data s). split; [|split; [reflexivity | cbn; lia]].
    destruct fault; cbn; rewrite list_lookup_alter_eq, Hs; reflexivity.
  - split; [destruct fault; reflexivity|].
    destruct fault as [e|]; cbn; rewrite list_lookup_alter_eq, Hs; cbn;
      eexists; (split; [reflexivity|]); cbn; rewrite app_nil_r; (split; [reflexivity | lia]).
  - split; [destruct fault; reflexivity|].
    destruct fault as [e|]; cbn; rewrite list_lookup_alter_eq, Hs; cbn;
      eexists; (split; [reflexivity|]); cbn; rewrite app_nil_r; (split; [reflexivity | lia]).
  - unfold Part000a.step, Part000a.dispatch, when_registered. cbn.
    destruct (strs !! sid); cbn; (split; [reflexivity|]);
      exists s; rewrite app_nil_r; (split; [exact Hs|]); (split; [reflexivity | lia]).
  - unfold Part000a.step, Part000a.dispatch, when_registered, Part000a.on_data. cbn.
    destruct (strs !! sid); cbn;
      [destruct (head (results data)) as [res|]; cbn;
       [destruct (head (alternatives res)); cbn|]|];
      (split; [reflexivity|]);
      exists s; rewrite app_nil_r; (split; [exact Hs|]); (split; [reflexivity | lia]).
  - unfold Part000a.step, Part000a.dispatch, when_registered, stream_finishes,
      update_stream. cbn.
    destruct (strs !! sid) eqn:Hsid; cbn; (split; [reflexivity|]).
    + destruct (decide (sid = n)) as [->|Hne].
      * exists (record_finished s). rewrite list_lookup_alter_eq, Hs. cbn.
        rewrite app_nil_r. split; [reflexivity|]. split; [reflexivity | lia].
      * exists s. rewrite list_lookup_alter_ne by exact Hne.
        rewrite app_nil_r. split; [exact Hs|]. split; [reflexivity | lia].
    + exists s. rewrite app_nil_r. split; [exact Hs|]. split; [reflexivity | lia].
Qed.

Lemma payloads_cons ev evs : payloads (ev :: evs) = payloads [ev] ++ payloads evs.
Proof. destruct ev; reflexivity. Qed.

(** X11: in the first document of part_000 nothing ever clears the stream
    reference.  Once a stream is referenced, and until the next start
    signal, every audio chunk is written to it, also after a stop, a
    disconnect or the stream's own 'end', and every stop or disconnect
    signal calls [end()] on it once more. *)
Theorem first_revision_never_lets_go evs : forall (w : World Part000a.Vars) n s,
  Forall (fun ev => is_start ev = false) evs ->
  vars w = Part000a.mkVars (Some n) ->
  streams w !! n = Some s ->
  vars (Part000a.run w evs) = Part000a.mkVars (Some n)
  /\ exists s',
      streams (Part000a.run w evs) !! n = Some s'
      /\ writes s' = writes s ++ payloads evs
      /\ end_calls s' = end_calls s + count_stops evs.
Proof.
  induction evs as [|ev evs IH]; intros w n s Hall Hv Hs.
  - cbn. split; [exact Hv|]. exists s. rewrite app_nil_r. split; [exact Hs|].
    split; [reflexivity | unfold count_stops; cbn; lia].
  - apply Forall_cons in Hall as [Hev Hall]. rewrite run_cons_a.
    destruct (step_a_referenced w ev n s Hev Hv Hs) as (Hv1 & s1 & Hs1 & Hw1 & He1).
    destruct (IH _ n s1 Hall Hv1 Hs1) as (Hv2 & s2 & Hs2 & Hw2 & He2).
    split; [exact Hv2|]. exists s2. split; [exact Hs2|].
    rewrite Hw2, Hw1, He2, He1, (payloads_cons ev evs), count_stops_cons, <- app_assoc.
    split; [reflexivity | lia].
Qed.

(** X12: in the first document of part_000 a handler lets an exception out
    in one situation only: a 'data' event, on a stream of the connection,
    whose first result has no alternative; what leaves the listener then is
    the TypeError.  No failure of a gateway call ever leaves a handler. *)
Theorem first_revision_throws_only_on_empty_alternatives (w : World Part000a.Vars) ev :
  (fst (Part000a.dispatch ev w) = Normal tt
   \/ fst (Part000a.dispatch ev w) = Throw TypeError_transcript)
  /\ (fst (Part000a.dispatch ev w) = Throw TypeError_transcript
      <-> exists sid data result,
          ev = StreamData sid data
          /\ is_Some (streams w !! sid)
          /\ head (results data) = Some result
          /\ alternatives result = []).
Proof.
  destruct w as [[rs] strs rc em co].
  destruct ev as [fault | data fault | fault | fault | sid error | sid data | sid].
  1-4: split; [left; destruct rs, fault; reflexivity|];
       split; [destruct rs, fault; discriminate | intros (? & ? & ? & H & _); discriminate H].
  - unfold Part000a.dispatch, when_registered. cbn.
    destruct (strs !! sid); cbn;
      (split; [left; reflexivity|]);
      (split; [discriminate | intros (? & ? & ? & H & _); discriminate H]).
  - unfold Part000a.dispatch, when_registered, Part000a.on_data. cbn.
    destruct (strs !! sid) as [s|] eqn:Hsid; cbn.
    + destruct (head (results data)) as [res|] eqn:Hres; cbn.
      * destruct (alternatives res) as [|alt alts] eqn:Halt; cbn.
        -- split; [right; reflexivity|]. split; [|reflexivity].
           intros _. exists sid, data, res. repeat split; eauto.
        -- split; [left; reflexivity|]. split; [discriminate|].
           intros (sid' & data' & res' & Hev & _ & Hres' & Halt').
           injection Hev as <- <-. congruence.
      * split; [left; reflexivity|]. split; [discriminate|].
        intros (sid' & data' & res' & Hev & _ & Hres' & _).
        injection Hev as <- <-. congruence.
    + split; [left; reflexivity|]. split; [discriminate|].
      intros (sid' & data' & res' & Hev & [x Hx] & _).
      injection Hev as <- <-. cbn in Hx. congruence.
  - unfold Part000a.dispatch, when_registered, stream_finishes. cbn.
    destruct (strs !! sid); cbn;
      (split; [left; reflexivity|]);
      (split; [discriminate | intros (? & ? & ? & H & _); discriminate H]).
Qed.

(** What one step of src/server.ts adds to the socket. *)
Lemma step_emits_s (w : World ServerTs.Vars) ev :
  emitted (ServerTs.step w ev) = emitted w
  \/ exists text, emitted (ServerTs.step w ev) = emitted w ++ [("transcription", text)].
Proof.
  destruct w as [[rs] strs rc em co].
  destruct ev as [fault | data fault | fault | fault | sid error | sid data | sid].
  1-4: left; destruct rs, fault; reflexivity.
  - left. s_unfold. destruct (strs !! sid); reflexivity.
  - s_unfold. destruct (strs !! sid); [|left; reflexivity].
    destruct (head (results data)) as [res|]; [|left; reflexivity].
    destruct (head (alternatives res)) as [alt|]; [|left; reflexivity].
    right. eexists. reflexivity.
  - left. s_unfold. destruct (strs !! sid); reflexivity.
Qed.

(** X13: src/server.ts never tells the client about a failure: whatever
    happens on a connection, every event it sends is a 'transcription'. *)
Theorem server_ts_never_reports_errors evs :
  Forall (fun sent => fst sent = "transcription")
    (emitted (ServerTs.run ServerTs.connected evs)).
Proof.
  induction evs as [|ev evs IH] using rev_ind; [constructor|].
  rewrite run_snoc_s.
  destruct (step_emits_s (ServerTs.run ServerTs.connected evs) ev) as [-> | (text & ->)].
  - exact IH.
  - apply Forall_app. split; [exact IH|]. constructor; [reflexivity | constructor].
Qed.

(** X14: in src/server.ts no gateway call is guarded: a client event's
    handler lets an exception out exactly when its gateway call is reached
    (always for a start, with a stream referenced otherwise) and raises, and
    what comes out is the gateway's exception. *)
Theorem server_ts_passes_gateway_failures_on (w : World ServerTs.Vars) ev error :
  is_client_event ev = true ->
  (fst (ServerTs.dispatch ev w) = Throw error
   <-> fault_of ev = Some error
       /\ (is_start ev = true \/ is_Some (ServerTs.recognizeStream (vars w)))).
Proof.
  intros Hclient. destruct w as [[rs] strs rc em co].
  destruct ev as [fault | data fault | fault | fault | sid err | sid data | sid];
    try discriminate Hclient; destruct rs as [s|], fault as [e|]; cbn;
    (split; [intros H; try discriminate H; injection H as ->; split; eauto
            | intros (H & Hreach); try discriminate H;
              try (injection H as ->; reflexivity);
              destruct Hreach as [Hr | [x Hr]]; discriminate Hr]).
Qed.

(** ** A whole session *)

(** X15: the life of one stream.  From any state with the backend available,
    a start that succeeds, then audio chunks, then a stop whose [end()]
    returns: the connection has one more stream object, its write log is the
    chunks' payloads in order, it received exactly one [end()] and is
    closed; the reference is cleared and the flag set; older streams are
    untouched; and the client was sent one error per failed [write] and
    nothing else. *)
Theorem one_session_start_to_stop hv sc client (w : World Part000b.Vars) chunks :
  hv = true ->
  sc = Some client ->
  let w' := Part000b.run hv sc w
              ([StartStream None] ++ chunk_events chunks ++ [EndStream None]) in
  vars w' = Part000b.mkVars None true
  /\ streams w'
     = streams w ++ [{| request := Part000b.request; writes := map fst chunks;
                        end_calls := 1; closed := true; finished := false |}]
  /\ emitted w'
     = emitted w ++ repeat ("error", "Failed to process audio data")
                      (count_failed_writes chunks).
Proof.
  intros -> ->. cbv zeta.
  rewrite run_app_b, run_app_b.
  set (w1 := Part000b.run true (Some client) w [StartStream None]).
  assert (Hv1 : vars w1 = Part000b.mkVars (Some (length (streams w))) false)
    by (destruct w as [[rs ended] strs rc em co]; reflexivity).
  assert (Hs1 : streams w1 = streams w ++ [new_stream Part000b.request])
    by (destruct w as [[rs ended] strs rc em co]; reflexivity).
  assert (He1 : emitted w1 = emitted w)
    by (destruct w as [[rs ended] strs rc em co]; reflexivity).
  destruct (quiet_events_forward_b true (Some client) (chunk_events chunks) w1
              (streams w) (new_stream Part000b.request)
              (chunk_events_quiet chunks) Hv1 Hs1) as [Hv2 Hs2].
  destruct (chunk_run_emits true (Some client) chunks w1
              (length (streams w))) as (_ & _ & He2);
    [rewrite Hv1; reflexivity | rewrite Hv1; reflexivity |].
  rewrite payloads_chunk_events in Hs2. rewrite He1 in He2.
  destruct (Part000b.run true (Some client) w1 (chunk_events chunks))
    as [vs2 strs2 rc2 em2 co2].
  cbn [vars streams emitted] in Hv2, Hs2, He2. subst vs2 strs2 em2.
  cbn. rewrite alter_last. repeat split.
Qed.

(** X16: a disconnect does to the session what a stop does: for every state
    and every outcome of [end()] the two handlers leave the same closure
    variables, the same stream objects, the same socket output and the same
    call count; they differ only in what they print. *)
Theorem disconnect_acts_like_stop hv sc (w : World Part000b.Vars) fault :
  let w1 := Part000b.step hv sc w (EndStream fault) in
  let w2 := Part000b.step hv sc w (Disconnect fault) in
  vars w2 = vars w1
  /\ streams w2 = streams w1
  /\ emitted w2 = emitted w1
  /\ recognize_calls w2 = recognize_calls w1
  /\ fst (Part000b.dispatch hv sc (Disconnect fault) w)
     = fst (Part000b.dispatch hv sc (EndStream fault) w)
  /\ exists printed, console w2 = console w ++ ConsoleLog [Text "Client disconnected"] :: printed.
Proof.
  destruct w as [[[s|] [|]] strs rc em co]; destruct fault as [e|]; cbn;
    repeat split; eexists; try reflexivity;
    rewrite <- app_assoc; reflexivity.
Qed.

(** ** The further properties at concrete inputs *)

Lemma unavailable_backend_run_witness :
  (false = false \/ Some sample_client = None)
  /\ emitted (Part000b.run false (Some sample_client) Part000b.connected
                [StartStream None; BinaryData chunk1 None; StartStream (Some sample_error)])
     = [("error", "Speech-to-Text service is not configured");
        ("error", "Speech-to-Text service is not configured")].
Proof.
  assert (H : false = false \/ Some sample_client = None) by (left; reflexivity).
  split; [exact H|].
  exact (proj2 (proj2 (proj2
           (unavailable_backend_run false (Some sample_client)
              [StartStream None; BinaryData chunk1 None; StartStream (Some sample_error)]
              H)))).
Defined.

Lemma one_stream_per_successful_start_witness :
  length (streams (Part000b.run true (Some sample_client) Part000b.connected
                     [StartStream None; StartStream (Some sample_error); EndStream None;
                      StartStream None])) = 2.
Proof.
  exact (proj2 (one_stream_per_successful_start true (Some sample_client) sample_client
                  [StartStream None; StartStream (Some sample_error); EndStream None;
                   StartStream None] eq_refl eq_refl)).
Defined.

Lemma one_error_per_failed_write_witness :
  let w := Part000b.run true (Some sample_client) Part000b.connected [StartStream None] in
  Part000b.recognizeStream (vars w) = Some 0
  /\ Part000b.isStreamEnded (vars w) = false
  /\ emitted (Part000b.run true (Some sample_client) w
                (chunk_events [(chunk1, Some sample_error); (chunk2, None);
                               (chunk1, Some sample_error)]))
     = [("error", "Failed to process audio data"); ("error", "Failed to process audio data")].
Proof.
  cbv zeta. split; [reflexivity|]. split; [reflexivity|].
  exact (proj2 (proj2
           (one_error_per_failed_write true (Some sample_client)
              [(chunk1, Some sample_error); (chunk2, None); (chunk1, Some sample_error)]
              (Part000b.run true (Some sample_client) Part000b.connected [StartStream None])
              0 eq_refl eq_refl))).
Defined.

Lemma failed_start_revives_the_stream_witness :
  let w := Part000b.run true (Some sample_client) Part000b.connected [StartStream None] in
  Part000b.recognizeStream (vars w) = Some 0
  /\ Part000b.isStreamEnded (vars w) = false
  /\ streams (Part000b.run true (Some sample_client) w
                [EndStream (Some sample_error); StartStream (Some sample_error);
                 BinaryData chunk1 None])
     = [{| request := Part000b.request; writes := [chunk1]; end_calls := 1;
           closed := false; finished := false |}].
Proof.
  cbv zeta. split; [reflexivity|]. split; [reflexivity|].
  exact (proj2 (proj2 (proj2 (proj2 (proj2
           (failed_start_revives_the_stream true (Some sample_client) sample_client
              (Part000b.run true (Some sample_client) Part000b.connected [StartStream None])
              0 sample_error sample_error chunk1 None eq_refl eq_refl eq_refl eq_refl)))))).
Defined.

Lemma transcriptions_arrive_in_order_witness :
  let w := Part000b.run true (Some sample_client) Part000b.connected [StartStream None] in
  let responses :=
    [(0, {| results := [{| alternatives := [{| transcript := "hello" |}] |}] |});
     (0, empty_alternatives);
     (0, {| results := [{| alternatives := [{| transcript := "hello world" |}] |}] |})] in
  Forall (fun response => is_Some (streams w !! fst response)) responses
  /\ emitted (Part000b.run true (Some sample_client) w (data_events responses))
     = [("transcription", "hello"); ("transcription", "hello world")].
Proof.
  cbv zeta.
  match goal with |- ?P /\ _ => assert (H : P) end.
  { repeat constructor; eexists; reflexivity. }
  split; [exact H|].
  rewrite (transcriptions_arrive_in_order true (Some sample_client) _ _ H). reflexivity.
Defined.

Lemma replaced_stream_is_never_closed_witness :
  let evs := [StartStream None; BinaryData chunk1 None; StartStream None] in
  streams (Part000b.run true (Some sample_client) Part000b.connected evs) !! 0
  = Some (record_write chunk1 (new_stream Part000b.request))
  /\ 1 < length (streams (Part000b.run true (Some sample_client) Part000b.connected evs))
  /\ exists s',
      streams (Part000b.run true (Some sample_client) Part000b.connected
                 (evs ++ [EndStream None; Disconnect None; BinaryData chunk2 None])) !! 0
      = Some s'
      /\ end_calls s' = 0.
Proof.
  cbv zeta.
  match goal with |- ?P /\ ?Q /\ _ => assert (H1 : P) by reflexivity;
                                      assert (H2 : Q) by (vm_compute; lia) end.
  split; [exact H1|]. split; [exact H2|].
  destruct (replaced_stream_is_never_closed true (Some sample_client) _
              [EndStream None; Disconnect None; BinaryData chunk2 None] 0 _ H1 H2)
    as (s' & Hlook & _ & _ & Hend & _).
  exists s'. split; [exact Hlook | exact Hend].
Defined.

Lemma first_revision_never_lets_go_witness :
  let w := Part000a.run Part000a.connected [StartStream None] in
  let evs := [BinaryData chunk1 None; EndStream None; BinaryData chunk2 None;
              StreamEnd 0; Disconnect None] in
  Forall (fun ev => is_start ev = false) evs
  /\ vars w = Part000a.mkVars (Some 0)
  /\ streams w !! 0 = Some (new_stream Part000a.request)
  /\ exists s',
      streams (Part000a.run w evs) !! 0 = Some s'
      /\ writes s' = [chunk1; chunk2]
      /\ end_calls s' = 2.
Proof.
  cbv zeta.
  match goal with |- ?P /\ ?Q /\ ?R /\ _ =>
    assert (H1 : P) by (repeat constructor);
    assert (H2 : Q) by reflexivity;
    assert (H3 : R) by reflexivity end.
  split; [exact H1|]. split; [exact H2|]. split; [exact H3|].
  destruct (first_revision_never_lets_go _ _ 0 _ H1 H2 H3) as (_ & s' & Hlook & Hw & He).
  exists s'. split; [exact Hlook|]. split; [exact Hw | exact He].
Defined.

Lemma first_revision_throws_only_on_empty_alternatives_witness :
  let w := Part000a.run Part000a.connected [StartStream None] in
  (exists sid data result,
      StreamData 0 empty_alternatives = StreamData sid data
      /\ is_Some (streams w !! sid)
      /\ head (results data) = Some result
      /\ alternatives result = [])
  /\ fst (Part000a.dispatch (StreamData 0 empty_alternatives) w) = Throw TypeError_transcript.
Proof.
  cbv zeta.
  match goal with |- ?P /\ _ => assert (H : P) end.
  { exists 0, empty_alternatives, {| alternatives := [] |}.
    repeat split. eexists. reflexivity. }
  split; [exact H|].
  apply (proj2 (first_revision_throws_only_on_empty_alternatives
                  (Part000a.run Part000a.connected [StartStream None])
                  (StreamData 0 empty_alternatives))).
  exact H.
Defined.

Lemma server_ts_passes_gateway_failures_on_witness :
  let w := ServerTs.run ServerTs.connected [StartStream None] in
  is_client_event (BinaryData chunk1 (Some sample_error)) = true
  /\ fst (ServerTs.dispatch (BinaryData chunk1 (Some sample_error)) w) = Throw sample_error.
Proof.
  cbv zeta. split; [reflexivity|].
  apply (server_ts_passes_gateway_failures_on
           (ServerTs.run ServerTs.connected [StartStream None])
           (BinaryData chunk1 (Some sample_error)) sample_error eq_refl).
  split; [reflexivity|]. right. eexists. reflexivity.
Defined.

Lemma one_session_start_to_stop_witness :
  streams (Part000b.run true (Some sample_client) Part000b.connected
             ([StartStream None]
              ++ chunk_events [(chunk1, None); (chunk2, Some sample_error)]
              ++ [EndStream None]))
  = [{| request := Part000b.request; writes := [chunk1; chunk2];
        end_calls := 1; closed := true; finished := false |}].
Proof.
  exact (proj1 (proj2
           (one_session_start_to_stop true (Some sample_client) sample_client
              Part000b.connected [(chunk1, None); (chunk2, Some sample_error)]
              eq_refl eq_refl))).
Defined.

(** * src/server.ts and the session contract *)

(** ** One reference per session *)

(** What one step of src/server.ts does to the stream objects and to the
    reference. *)
Lemma step_cases_s (w : World ServerTs.Vars) ev :
  (streams (ServerTs.step w ev) = streams w /\ vars (ServerTs.step w ev) = vars w)
  \/ (ev = StartStream None
      /\ streams (ServerTs.step w ev) = streams w ++ [new_stream ServerTs.request]
      /\ vars (ServerTs.step w ev) = ServerTs.mkVars (Some (length (streams w))))
  \/ (exists stream data fault,
        ev = BinaryData data fault
        /\ ServerTs.recognizeStream (vars w) = Some stream
        /\ streams (ServerTs.step w ev) = alter (record_write data) stream (streams w)
        /\ vars (ServerTs.step w ev) = vars w)
  \/ (exists stream ok,
        stop_or_disconnect ev = true
        /\ ServerTs.recognizeStream (vars w) = Some stream
        /\ streams (ServerTs.step w ev) = alter (record_end ok) stream (streams w)
        /\ vars (ServerTs.step w ev) = vars w)
  \/ (exists sid,
        ev = StreamEnd sid
        /\ streams (ServerTs.step w ev) = alter record_finished sid (streams w)
        /\ vars (ServerTs.step w ev) = vars w).
Proof.
  destruct w as [[rs] strs rc em co].
  destruct ev as [fault | data fault | fault | fault | sid error | sid data | sid].
  - destruct fault as [e|]; [left; split; reflexivity|].
    right; left. repeat split; reflexivity.
  - destruct rs as [s|]; [|left; split; reflexivity].
    right; right; left. exists s, data, fault. destruct fault; repeat split; reflexivity.
  - destruct rs as [s|]; [|left; split; reflexivity].
    right; right; right; left. destruct fault as [e|];
      [exists s, false | exists s, true]; repeat split; reflexivity.
  - destruct rs as [s|]; [|left; split; reflexivity].
    right; right; right; left. destruct fault as [e|];
      [exists s, false | exists s, true]; repeat split; reflexivity.
  - left. s_unfold. destruct (strs !! sid); split; reflexivity.
  - left. s_unfold. destruct (strs !! sid); [|split; reflexivity].
    destruct (head (results data)) as [res|]; [|split; reflexivity].
    destruct (head (alternatives res)); split; reflexivity.
  - s_unfold. destruct (strs !! sid) eqn:Hsid; [|left; split; reflexivity].
    right; right; right; right. exists sid. repeat split; reflexivity.
Qed.

Lemma step_preserves_newest_s (w : World ServerTs.Vars) ev :
  refers_to_newest w -> refers_to_newest (ServerTs.step w ev).
Proof.
  intros Hinv stream Href.
  destruct (step_cases_s w ev) as [H | [H | [H | [H | H]]]].
  - destruct H as [Hs Hv]. rewrite Hs. rewrite Hv in Href. exact (Hinv _ Href).
  - destruct H as (_ & Hs & Hv). rewrite Hv in Href. cbn in Href. injection Href as <-.
    rewrite Hs, length_app. cbn. lia.
  - destruct H as (st & data & fault & _ & _ & Hs & Hv).
    rewrite Hs, length_alter. rewrite Hv in Href. exact (Hinv _ Href).
  - destruct H as (st & ok & _ & _ & Hs & Hv).
    rewrite Hs, length_alter. rewrite Hv in Href. exact (Hinv _ Href).
  - destruct H as (sid & _ & Hs & Hv).
    rewrite Hs, length_alter. rewrite Hv in Href. exact (Hinv _ Href).
Qed.

Lemma reachable_newest_s evs : refers_to_newest (ServerTs.run ServerTs.connected evs).
Proof.
  induction evs as [|ev evs IH] using rev_ind.
  - intros stream Href. discriminate Href.
  - rewrite run_snoc_s. apply step_preserves_newest_s. exact IH.
Qed.

Lemma step_stream_lookup_s (w : World ServerTs.Vars) ev sid s :
  streams w !! sid = Some s ->
  length (streams w) <= length (streams (ServerTs.step w ev))
  /\ exists s',
      streams (ServerTs.step w ev) !! sid = Some s'
      /\ (writes s' = writes s
          \/ (ServerTs.recognizeStream (vars w) = Some sid
              /\ exists data fault,
                  ev = BinaryData data fault /\ writes s' = writes s ++ [data])).
Proof.
  intros Hlook.
  destruct (step_cases_s w ev) as [H | [H | [H | [H | H]]]].
  - destruct H as [Hs _]. rewrite Hs. split; [lia|]. exists s. auto.
  - destruct H as (_ & Hs & _). rewrite Hs, length_app. split; [lia|].
    exists s. split; [apply lookup_app_l_Some; exact Hlook | auto].
  - destruct H as (st & data & fault & Hev & Hr & Hs & _).
    rewrite Hs, length_alter. split; [lia|].
    destruct (decide (st = sid)) as [->|Hne].
    + exists (record_write data s). rewrite list_lookup_alter_eq, Hlook.
      split; [reflexivity|]. right. eauto 10.
    + exists s. rewrite list_lookup_alter_ne by exact Hne. auto.
  - destruct H as (st & ok & _ & _ & Hs & _).
    rewrite Hs, length_alter. split; [lia|].
    destruct (decide (st = sid)) as [->|Hne].
    + exists (record_end ok s). rewrite list_lookup_alter_eq, Hlook. auto.
    + exists s. rewrite list_lookup_alter_ne by exact Hne. auto.
  - destruct H as (st & _ & Hs & _).
    rewrite Hs, length_alter. split; [lia|].
    destruct (decide (st = sid)) as [->|Hne].
    + exists (record_finished s). rewrite list_lookup_alter_eq, Hlook. auto.
    + exists s. rewrite list_lookup_alter_ne by exact Hne. auto.
Qed.

Lemma replaced_stream_keeps_writes_s evs later sid s :
  streams (ServerTs.run ServerTs.connected evs) !! sid = Some s ->
  S sid < length (streams (ServerTs.run ServerTs.connected evs)) ->
  exists s',
    streams (ServerTs.run ServerTs.connected (evs ++ later)) !! sid = Some s'
    /\ writes s' = writes s
    /\ S sid < length (streams (ServerTs.run ServerTs.connected (evs ++ later))).
Proof.
  intros Hlook Hold. induction later as [|ev later IH] using rev_ind.
  - rewrite app_nil_r. exists s. auto.
  - destruct IH as (s2 & Hlook2 & Hw2 & Hold2).
    rewrite app_assoc, run_snoc_s.
    pose proof (reachable_newest_s (evs ++ later)) as Hinv.
    destruct (step_stream_lookup_s _ ev sid s2 Hlook2) as (Hlen & s3 & Hlook3 & Hw3).
    exists s3. split; [exact Hlook3|]. split; [|lia].
    destruct Hw3 as [Hw3 | (Href & _)]; [congruence|].
    specialize (Hinv _ Href). lia.
Qed.

(** C1, as the code has it.  In the second document of part_000 and in
    src/server.ts alike, in every state a connection can reach: the session
    refers to at most one stream, the one handed out last; a step extends
    the write log of a stream only when it is an audio chunk and the session
    refers to that stream, and then by exactly the chunk's payload; a stream
    that was replaced by a newer one never receives another write; and a
    start that succeeds while a stream is referenced moves the reference to
    the new stream and leaves the old stream object exactly as it was, with
    no [end()] call.  In the second document of part_000, moreover, the
    referenced stream is live, writes happen only while [isStreamEnded] is
    false, and a stream that accepted a close request or finished by itself
    never receives another write. *)
Theorem one_reference_per_session hv sc evs :
  let w := Part000b.run hv sc Part000b.connected evs in
  let ws := ServerTs.run ServerTs.connected evs in
  (session_inv w
   /\ (forall ev sid s s',
         streams w !! sid = Some s ->
         streams (Part000b.step hv sc w ev) !! sid = Some s' ->
         writes s' <> writes s ->
         Part000b.recognizeStream (vars w) = Some sid
         /\ Part000b.isStreamEnded (vars w) = false
         /\ live s = true
         /\ S sid = length (streams w)
         /\ exists data fault, ev = BinaryData data fault /\ writes s' = writes s ++ [data])
   /\ (forall later sid s s',
         streams w !! sid = Some s ->
         live s = false \/ S sid < length (streams w) ->
         streams (Part000b.run hv sc w later) !! sid = Some s' ->
         writes s' = writes s)
   /\ (forall client old s,
         hv = true ->
         sc = Some client ->
         Part000b.recognizeStream (vars w) = Some old ->
         streams w !! old = Some s ->
         let w' := Part000b.step hv sc w (StartStream None) in
         Part000b.recognizeStream (vars w') = Some (length (streams w))
         /\ old <> length (streams w)
         /\ streams w' !! old = Some s
         /\ live s = true
         /\ streams w' !! length (streams w) = Some (new_stream Part000b.request)))
  /\
  (refers_to_newest ws
   /\ (forall ev sid s s',
         streams ws !! sid = Some s ->
         streams (ServerTs.step ws ev) !! sid = Some s' ->
         writes s' <> writes s ->
         ServerTs.recognizeStream (vars ws) = Some sid
         /\ S sid = length (streams ws)
         /\ exists data fault, ev = BinaryData data fault /\ writes s' = writes s ++ [data])
   /\ (forall later sid s s',
         streams ws !! sid = Some s ->
         S sid < length (streams ws) ->
         streams (ServerTs.run ws later) !! sid = Some s' ->
         writes s' = writes s)
   /\ (forall old s,
         ServerTs.recognizeStream (vars ws) = Some old ->
         streams ws !! old = Some s ->
         let ws' := ServerTs.step ws (StartStream None) in
         ServerTs.recognizeStream (vars ws') = Some (length (streams ws))
         /\ old <> length (streams ws)
         /\ streams ws' !! old = Some s
         /\ streams ws' !! length (streams ws) = Some (new_stream ServerTs.request))).
Proof.
  intros w ws.
  pose proof (reachable_inv hv sc evs) as Hinv. fold w in Hinv.
  pose proof (reachable_newest_s evs) as Hnew. fold ws in Hnew.
  split; [split; [exact Hinv|split; [|split]] | split; [exact Hnew|split; [|split]]].
  - intros ev sid s s' Hlook Hlook' Hneq.
    destruct (step_stream_lookup hv sc w ev sid s Hlook) as (_ & s0 & Hlook0 & _ & Hw).
    rewrite Hlook' in Hlook0. injection Hlook0 as <-.
    destruct Hw as [Hw | (Href & Hend & data & fault & Hev & Hw)]; [contradiction|].
    destruct (Hinv _ Href) as (Hnewest & s1 & Hlook1 & Hlive1).
    rewrite Hlook in Hlook1. injection Hlook1 as <-.
    repeat split; try assumption. eauto.
  - intros later sid s s' Hlook Hret Hlook'.
    destruct (retired_stream_keeps_writes hv sc evs later sid s Hlook Hret)
      as (s2 & Hlook2 & Hw2 & _).
    rewrite run_app_b in Hlook2. fold w in Hlook2. congruence.
  - intros client old s Hcred Hclient Href Hlook.
    destruct (Hinv _ Href) as (Hnewest & s1 & Hlook1 & Hlive1).
    rewrite Hlook in Hlook1. injection Hlook1 as <-.
    clearbody w. subst hv sc. destruct w as [[rs ended] strs rc em co].
    cbn in *. repeat split; try assumption.
    + lia.
    + apply lookup_app_l_Some. exact Hlook.
    + apply list_lookup_middle. reflexivity.
  - intros ev sid s s' Hlook Hlook' Hneq.
    destruct (step_stream_lookup_s ws ev sid s Hlook) as (_ & s0 & Hlook0 & Hw).
    rewrite Hlook' in Hlook0. injection Hlook0 as <-.
    destruct Hw as [Hw | (Href & data & fault & Hev & Hw)]; [contradiction|].
    repeat split; [exact Href | exact (Hnew _ Href) | eauto].
  - intros later sid s s' Hlook Hold Hlook'.
    destruct (replaced_stream_keeps_writes_s evs later sid s Hlook Hold)
      as (s2 & Hlook2 & Hw2 & _).
    rewrite run_app_s in Hlook2. fold ws in Hlook2. congruence.
  - intros old s Href Hlook. specialize (Hnew _ Href).
    clearbody ws. destruct ws as [[rs] strs rc em co].
    cbn in *. repeat split.
    + lia.
    + apply lookup_app_l_Some. exact Hlook.
    + apply list_lookup_middle. reflexivity.
Qed.

Lemma one_reference_per_session_witness :
  let evs := [StartStream None; BinaryData chunk1 None] in
  let w := Part000b.run true (Some sample_client) Part000b.connected evs in
  let ws := ServerTs.run ServerTs.connected evs in
  (Part000b.recognizeStream (vars w) = Some 0
   /\ streams w !! 0 = Some (record_write chunk1 (new_stream Part000b.request))
   /\ open_streams (Part000b.step true (Some sample_client) w (StartStream None)) = [0; 1]
   /\ Part000b.recognizeStream
        (vars (Part000b.step true (Some sample_client) w (StartStream None))) = Some 1)
  /\ (ServerTs.recognizeStream (vars ws) = Some 0
      /\ streams ws !! 0 = Some (record_write chunk1 (new_stream ServerTs.request))
      /\ ServerTs.recognizeStream (vars (ServerTs.step ws (StartStream None))) = Some 1
      /\ streams (ServerTs.step ws (StartStream None)) !! 0
         = Some (record_write chunk1 (new_stream ServerTs.request))).
Proof.
  cbv zeta.
  destruct (one_reference_per_session true (Some sample_client)
              [StartStream None; BinaryData chunk1 None])
    as ((_ & _ & _ & Hb) & (_ & _ & _ & Hs)).
  assert (Hb1 : Part000b.recognizeStream
                  (vars (Part000b.run true (Some sample_client) Part000b.connected
                           [StartStream None; BinaryData chunk1 None])) = Some 0)
    by reflexivity.
  assert (Hb2 : streams (Part000b.run true (Some sample_client) Part000b.connected
                           [StartStream None; BinaryData chunk1 None]) !! 0
                = Some (record_write chunk1 (new_stream Part000b.request)))
    by reflexivity.
  assert (Hs1 : ServerTs.recognizeStream
                  (vars (ServerTs.run ServerTs.connected
                           [StartStream None; BinaryData chunk1 None])) = Some 0)
    by reflexivity.
  assert (Hs2 : streams (ServerTs.run ServerTs.connected
                           [StartStream None; BinaryData chunk1 None]) !! 0
                = Some (record_write chunk1 (new_stream ServerTs.request)))
    by reflexivity.
  destruct (Hb sample_client 0 _ eq_refl eq_refl Hb1 Hb2) as (Hb3 & _).
  destruct (Hs 0 _ Hs1 Hs2) as (Hs3 & _ & Hs4 & _).
  repeat split; try assumption; reflexivity.
Defined.

(** ** Where src/server.ts and the first document of part_000 fall short *)

(** C4 fails in src/server.ts: the stop handler never clears the reference,
    so a second stop, or a disconnect after a stop, calls [end()] on the same
    stream once more. *)
Theorem server_ts_stop_closes_twice :
  let twice := ServerTs.run ServerTs.connected
                 [StartStream None; EndStream None; EndStream None] in
  let then_disconnect := ServerTs.run ServerTs.connected
                           [StartStream None; EndStream None; Disconnect None] in
  streams (ServerTs.run ServerTs.connected [StartStream None; EndStream None])
  = [{| request := ServerTs.request; writes := []; end_calls := 1;
        closed := true; finished := false |}]
  /\ ServerTs.recognizeStream
       (vars (ServerTs.run ServerTs.connected [StartStream None; EndStream None])) = Some 0
  /\ streams twice
     = [{| request := ServerTs.request; writes := []; end_calls := 2;
           closed := true; finished := false |}]
  /\ streams then_disconnect
     = [{| request := ServerTs.request; writes := []; end_calls := 2;
           closed := true; finished := false |}].
Proof. repeat split. Qed.

(** C5 fails in the two earlier revisions: in src/server.ts the 'error'
    listener only prints, so an error other than "write after end" never
    reaches the client; in the first document of part_000 the listener has
    no filter, so "write after end" is reported to the client like any
    other error. *)
Theorem earlier_error_listeners_do_not_filter :
  let ws := ServerTs.run ServerTs.connected [StartStream None] in
  let wa := Part000a.run Part000a.connected [StartStream None] in
  message sample_error <> "write after end"
  /\ emitted (ServerTs.step ws (StreamError 0 sample_error)) = []
  /\ console (ServerTs.step ws (StreamError 0 sample_error))
     = console ws ++ [ConsoleError [Obj sample_error]]
  /\ message write_after_end = "write after end"
  /\ emitted (Part000a.step wa (StreamError 0 write_after_end))
     = [("error", "Speech recognition error occurred")].
Proof. cbv zeta. repeat split. discriminate. Qed.

(** C6 fails in src/server.ts: nothing validates the credentials.  With the
    environment variable unset the text "{}" is parsed, a client is built
    from it, and a start signal calls [streamingRecognize] and opens a
    stream; no "not configured" error is sent. *)
Theorem server_ts_starts_without_credentials JSON_parse new_client json client :
  JSON_parse "{}" = Normal json ->
  new_client json = Normal client ->
  ServerTs.speechClient_of JSON_parse new_client None = Normal client
  /\ ServerTs.speechClient_of JSON_parse new_client (Some "") = Normal client
  /\ ServerTs.step ServerTs.connected (StartStream None)
     = mkWorld (ServerTs.mkVars (Some 0)) [new_stream ServerTs.request] 1 []
         [ConsoleLog [Text "Client connected"]].
Proof.
  intros Hparse Hnew. unfold ServerTs.speechClient_of. cbn.
  rewrite Hparse, Hnew. repeat split.
Qed.

Lemma server_ts_starts_without_credentials_witness :
  accepting_parser "{}" = Normal (JObject [])
  /\ building_constructor (JObject []) = Normal sample_client
  /\ ServerTs.speechClient_of accepting_parser building_constructor None
     = Normal sample_client
  /\ recognize_calls (ServerTs.step ServerTs.connected (StartStream None)) = 1
  /\ emitted (ServerTs.step ServerTs.connected (StartStream None)) = [].
Proof.
  destruct (server_ts_starts_without_credentials accepting_parser building_constructor
              (JObject []) sample_client eq_refl eq_refl) as (Hclient & _ & Hstep).
  split; [reflexivity|]. split; [reflexivity|]. split; [exact Hclient|].
  rewrite Hstep. split; reflexivity.
Defined.

(** C7 fails in src/server.ts: no 'end' listener is registered and nothing
    clears the reference, so an audio chunk that arrives after the stream
    ended by itself is still passed to [write]; when that [write] throws,
    the exception leaves the handler. *)
Theorem server_ts_writes_after_upstream_end :
  let w := ServerTs.run ServerTs.connected [StartStream None; StreamEnd 0] in
  ServerTs.recognizeStream (vars w) = Some 0
  /\ streams w
     = [{| request := ServerTs.request; writes := []; end_calls := 0;
           closed := false; finished := true |}]
  /\ streams (ServerTs.step w (BinaryData chunk1 None))
     = [{| request := ServerTs.request; writes := [chunk1]; end_calls := 0;
           closed := false; finished := true |}]
  /\ fst (ServerTs.dispatch (BinaryData chunk1 (Some write_after_end)) w)
     = Throw write_after_end.
Proof. repeat split. Qed.

(** C10 fails in src/server.ts: [end()] is called without try/catch, so when
    it throws, the exception leaves the stop handler and the disconnect
    handler, and the failure is not printed.  Nothing is emitted either
    way. *)
Theorem server_ts_close_failure_escapes :
  let w := ServerTs.run ServerTs.connected [StartStream None] in
  fst (ServerTs.dispatch (EndStream (Some sample_error)) w) = Throw sample_error
  /\ console (ServerTs.step w (EndStream (Some sample_error))) = console w
  /\ emitted (ServerTs.step w (EndStream (Some sample_error))) = emitted w
  /\ fst (ServerTs.dispatch (Disconnect (Some sample_error)) w) = Throw sample_error
  /\ console (ServerTs.step w (Disconnect (Some sample_error)))
     = console w ++ [ConsoleLog [Text "Client disconnected"]]
  /\ emitted (ServerTs.step w (Disconnect (Some sample_error))) = emitted w.
Proof. repeat split. Qed.
